(** * Pixoo: frame buffer, rasterizer and transmission controller

    A shallow embedding of [pixoo/__init__.py].  Python integers are [Z],
    the frame buffer (a Python list of ints, three per pixel, row-major) is
    a [list Z] read and written through stdpp's lookup and insert, the set
    of points collected by [draw_line] is a [gset (Z * Z)], and the methods
    of the [Pixoo] class are computations in a small state-and-exception
    monad over the object's attributes and the traffic it produces.

    Left out of the model: the diagnostics printed under [debug] (they go to
    standard output only), the device address and its discovery, glyph and
    image drawing.  The floats of [draw_line] are binary64 numbers with the
    operations of the standard library's [SpecFloat]. *)

From Stdlib Require Import ZArith QArith Qround List String Ascii Lia Bool.
From Stdlib Require Import SpecFloat.
From stdpp Require Import base tactics option list gmap sets.

Local Open Scope Z_scope.

(** ** Module-level helpers *)

Definition Color : Type := Z * Z * Z.
Definition Location : Type := Z * Z.

Definition clamp (value minimum maximum : Z) : Z :=
  if value >? maximum then maximum
  else if value <? minimum then minimum
  else value.

Definition clamp_color (rgb : Color) : Color :=
  let '(r, g, b) := rgb in (clamp r 0 255, clamp g 0 255, clamp b 0 255).

Definition minimum_amount_of_steps (xy1 xy2 : Location) : Z :=
  Z.max (Z.abs (fst xy1 - fst xy2)) (Z.abs (snd xy1 - snd xy2)).

(** The rounding that Python's [round] with no digits argument applies to
    the exact value of a float: nearest integer, ties to the even one. *)
Definition py_round (q : Q) : Z :=
  let f := Qfloor q in
  match Qcompare (q - inject_Z f) (1 # 2) with
  | Lt => f
  | Gt => f + 1
  | Eq => if Z.even f then f else f + 1
  end.

(** [range(lo, hi)] *)
Definition range (lo hi : Z) : list Z := seqZ lo (hi - lo).

(** [l[i] = v] on a Python list: a negative index counts from the end, an
    index outside [-len, len) raises [IndexError] (here [None]). *)
Definition list_setitem (l : list Z) (i v : Z) : option (list Z) :=
  let n := Z.of_nat (length l) in
  if (0 <=? i) && (i <? n) then Some (<[Z.to_nat i := v]> l)
  else if (- n <=? i) && (i <? 0) then Some (<[Z.to_nat (n + i) := v]> l)
  else None.

(** ** The object and its surroundings *)

Record Pixoo : Type := mkPixoo {
  size : Z;
  pixel_count : Z;
  simulated : bool;
  refresh_connection_automatically : bool;
  buffer : list Z;
  buffers_send : Z;
  counter : Z
}.

(** The class attribute [__refresh_counter_limit]; nothing assigns it. *)
Definition refresh_counter_limit : Z := 32.

Definition with_buffer (b : list Z) (p : Pixoo) : Pixoo :=
  mkPixoo (size p) (pixel_count p) (simulated p)
          (refresh_connection_automatically p) b (buffers_send p) (counter p).

Definition with_counter (c : Z) (p : Pixoo) : Pixoo :=
  mkPixoo (size p) (pixel_count p) (simulated p)
          (refresh_connection_automatically p) (buffer p) (buffers_send p) c.

Definition with_buffers_send (n : Z) (p : Pixoo) : Pixoo :=
  mkPixoo (size p) (pixel_count p) (simulated p)
          (refresh_connection_automatically p) (buffer p) n (counter p).

(** The commands handed to [send_command], one constructor per command
    name, with the keyword arguments of the call.  [pic_data] carries the
    bytes that the method base64-encodes. *)
Inductive Command : Type :=
| Draw_SendHttpGif (pic_num pic_width pic_offset pic_id pic_speed : Z)
                   (pic_data : list Z)
| Draw_GetHttpGifId
| Draw_ResetHttpGifId
| Draw_SendText (text_id x y dir font text_width speed : Z)
                (text_string color : string) (align : Z)
| Channel_SetBrightness (brightness : Z)
| Channel_SetIndex (select_index : Z)
| Channel_SetClockSelectId (clock_id : Z)
| Channel_SetCustomPageIndex (custom_page_index : Z)
| Channel_OnOffScreen (on_off : Z)
| Channel_SetEqPosition (eq_position : Z)
| Tools_SetTimer (minute second status : Z).

(** What leaves the object: a command on the device channel, or a frame
    shown by the simulator. *)
Inductive Event : Type :=
| Sent (c : Command)
| Displayed (frame : list Z) (frame_id : Z).

Inductive Exn : Type :=
| AssertionError
| IndexError
| ValueError
| OverflowError
| ZeroDivisionError
| TransportFailure.

Inductive Outcome (A : Type) : Type :=
| Return (a : A)
| Raise (e : Exn).
Arguments Return {A} a.
Arguments Raise {A} e.

Record World : Type := mkWorld {
  self : Pixoo;
  wire : list Event
}.

(** ** The monad of methods *)

Definition Py (A : Type) : Type := World -> Outcome A * World.

Definition ret {A} (a : A) : Py A := fun w => (Return a, w).

Definition bind {A B} (m : Py A) (k : A -> Py B) : Py B :=
  fun w =>
    match m w with
    | (Return a, w') => k a w'
    | (Raise e, w') => (Raise e, w')
    end.

Definition raise {A} (e : Exn) : Py A := fun w => (Raise e, w).

Definition get : Py Pixoo := fun w => (Return (self w), w).

Definition modify (f : Pixoo -> Pixoo) : Py unit :=
  fun w => (Return tt, mkWorld (f (self w)) (wire w)).

Definition emit (e : Event) : Py unit :=
  fun w => (Return tt, mkWorld (self w) (wire w ++ [e])).

Declare Scope py_scope.
Delimit Scope py_scope with py.
Notation "'let!' x := m 'in' k" := (bind m (fun x => k))
  (at level 10, x name, m at level 100, k at level 200) : py_scope.
Notation "m >> k" := (bind m (fun _ => k))
  (at level 90, right associativity) : py_scope.
Local Open Scope py_scope.

(** [for x in xs: body(x)] *)
Fixpoint for_ {A} (xs : list A) (body : A -> Py unit) : Py unit :=
  match xs with
  | [] => ret tt
  | x :: rest => body x >> for_ rest body
  end.

(** A computation that touches neither the object nor the traffic. *)
Definition lift {A} (o : Outcome A) : Py A := fun w => (o, w).

Notation "'let?' x := m 'in' k" :=
  (match m with Return x => k | Raise e => Raise e end)
  (at level 10, x name, m at level 100, k at level 200) : py_scope.

(** [for x in xs: s = f(s, x)], without the object. *)
Fixpoint fold_outcome {A S} (f : S -> A -> Outcome S) (xs : list A) (s : S)
    : Outcome S :=
  match xs with
  | [] => Return s
  | x :: rest => let? s' := f s x in fold_outcome f rest s'
  end.

(** ** Python numbers *)

(** A float is a binary64 number: 53 bits of precision, exponents below
    1024. *)
Definition float : Type := spec_float.

Inductive number : Type :=
| PyInt (z : Z)
| PyFloat (f : float).

(** The conversion of an int that arithmetic with a float applies: the
    nearest float, ties to even, and [OverflowError] when that is beyond
    the largest float. *)
Definition float_of_int (z : Z) : Outcome float :=
  match binary_normalize 53 1024 z 0 false with
  | S754_infinity _ => Raise OverflowError
  | f => Return f
  end.

(** [a / b] on two ints: the float nearest to the exact quotient. *)
Definition int_true_div (a b : Z) : Outcome float :=
  if b =? 0 then Raise ZeroDivisionError
  else if a =? 0 then Return (S754_zero (b <? 0))
  else
    let '(mz, ez, lz) := SFdiv_core_binary 53 1024 (Z.abs a) 0 (Z.abs b) 0 in
    match binary_round_aux 53 1024 (xorb (a <? 0) (b <? 0)) mz ez lz with
    | S754_infinity _ => Raise OverflowError
    | f => Return f
    end.

Definition as_float (x : number) : Outcome float :=
  match x with
  | PyInt z => float_of_int z
  | PyFloat f => Return f
  end.

(** [x + y], [x - y] and [x * y]: exact on two ints, in binary64 once a
    float is involved.  Float addition, subtraction and multiplication do
    not raise; they give an infinity or a NaN. *)
Definition py_add (x y : number) : Outcome number :=
  match x, y with
  | PyInt a, PyInt b => Return (PyInt (a + b))
  | _, _ =>
      let? fx := as_float x in
      let? fy := as_float y in
      Return (PyFloat (SFadd 53 1024 fx fy))
  end.

Definition py_sub (x y : number) : Outcome number :=
  match x, y with
  | PyInt a, PyInt b => Return (PyInt (a - b))
  | _, _ =>
      let? fx := as_float x in
      let? fy := as_float y in
      Return (PyFloat (SFsub 53 1024 fx fy))
  end.

Definition py_mul (x y : number) : Outcome number :=
  match x, y with
  | PyInt a, PyInt b => Return (PyInt (a * b))
  | _, _ =>
      let? fx := as_float x in
      let? fy := as_float y in
      Return (PyFloat (SFmul 53 1024 fx fy))
  end.

(** The exact value of a finite float. *)
Definition float_value (s : bool) (m : positive) (e : Z) : Q :=
  if 0 <=? e then inject_Z (cond_Zopp s (Zpos m) * 2 ^ e)
  else Qmake (cond_Zopp s (Zpos m)) (Z.to_pos (2 ^ (- e))).

(** [round(x)]: an int is its own rounding; an infinity raises
    [OverflowError] and a NaN [ValueError]. *)
Definition py_round_number (x : number) : Outcome Z :=
  match x with
  | PyInt z => Return z
  | PyFloat (S754_zero _) => Return 0
  | PyFloat (S754_infinity _) => Raise OverflowError
  | PyFloat S754_nan => Raise ValueError
  | PyFloat (S754_finite s m e) => Return (py_round (float_value s m e))
  end.

Definition lerp (start stop interpolant : number) : Outcome number :=
  let? distance := py_sub stop start in
  let? advance := py_mul interpolant distance in
  py_add start advance.

Definition lerp_location (xy1 xy2 : Location) (interpolant : number)
    : Outcome (number * number) :=
  let? x := lerp (PyInt (fst xy1)) (PyInt (fst xy2)) interpolant in
  let? y := lerp (PyInt (snd xy1)) (PyInt (snd xy2)) interpolant in
  Return (x, y).

Definition round_location (xy : number * number) : Outcome Location :=
  let? x := py_round_number (fst xy) in
  let? y := py_round_number (snd xy) in
  Return (x, y).

(** ** Frame buffer *)

Definition setitem (i v : Z) : Py unit :=
  let! p := get in
  match list_setitem (buffer p) i v with
  | Some b => modify (with_buffer b)
  | None => raise IndexError
  end.

Definition draw_pixel_at_index (index : Z) (rgb : Color) : Py unit :=
  let! p := get in
  if (index <? 0) || (index >=? pixel_count p) then ret tt
  else
    let '(r, g, b) := clamp_color rgb in
    let index := index * 3 in
    setitem index r >>
    setitem (index + 1) g >>
    setitem (index + 2) b.

Definition draw_pixel (xy : Location) (rgb : Color) : Py unit :=
  let! p := get in
  if (fst xy <? 0) || (fst xy >=? size p) || (snd xy <? 0) || (snd xy >=? size p)
  then ret tt
  else
    let index := fst xy + snd xy * size p in
    draw_pixel_at_index index rgb.

Definition fill (rgb : Color) : Py unit :=
  modify (with_buffer []) >>
  let '(r, g, b) := clamp_color rgb in
  let! p := get in
  for_ (range 0 (pixel_count p))
       (fun _ => modify (fun p => with_buffer (buffer p ++ [r; g; b]) p)).

(** ** Rasterizer *)

Definition draw_filled_rectangle (top_left_xy bottom_right_xy : Location)
    (rgb : Color) : Py unit :=
  for_ (range (snd top_left_xy) (snd bottom_right_xy + 1)) (fun y =>
    for_ (range (fst top_left_xy) (fst bottom_right_xy + 1)) (fun x =>
      draw_pixel (x, y) rgb)).

(** The point that one step of the first loop of [draw_line] adds. *)
Definition line_point (start_xy stop_xy : Location) (amount_of_steps step : Z)
    : Outcome Location :=
  let? interpolant :=
    if amount_of_steps =? 0 then Return (PyInt 0)
    else let? quotient := int_true_div step amount_of_steps in
         Return (PyFloat quotient) in
  let? xy := lerp_location start_xy stop_xy interpolant in
  round_location xy.

(** The set built by the first loop of [draw_line], or the exception that
    ends the loop. *)
Definition line_points (start_xy stop_xy : Location) : Outcome (gset Location) :=
  let amount_of_steps := minimum_amount_of_steps start_xy stop_xy in
  fold_outcome
    (fun line step =>
       let? pixel := line_point start_xy stop_xy amount_of_steps step in
       Return ({[ pixel ]} ∪ line))
    (range 0 amount_of_steps) ∅.

Definition draw_line (start_xy stop_xy : Location) (rgb : Color) : Py unit :=
  let! line := lift (line_points start_xy stop_xy) in
  for_ (elements line) (fun pixel => draw_pixel pixel rgb).

(** One coordinate of the point [draw_line] adds at a step: the [lerp] of
    that coordinate, rounded. *)
Definition line_coordinate (start stop amount_of_steps step : Z) : Outcome Z :=
  let? interpolant :=
    if amount_of_steps =? 0 then Return (PyInt 0)
    else let? quotient := int_true_div step amount_of_steps in
         Return (PyFloat quotient) in
  let? x := lerp (PyInt start) (PyInt stop) interpolant in
  py_round_number x.

(** The coordinate is computed and lies between the two ends. *)
Definition returns_between (start stop : Z) (o : Outcome Z) : bool :=
  match o with
  | Return x => (Z.min start stop <=? x) && (x <=? Z.max start stop)
  | Raise _ => false
  end.

(** Every coordinate of every step of every line between points of a screen
    of the given side is computed and lies between the two ends. *)
Definition screen_lines_inside (side : Z) : bool :=
  forallb (fun amount_of_steps =>
    forallb (fun step =>
      forallb (fun start =>
        forallb (fun stop =>
          returns_between start stop
            (line_coordinate start stop amount_of_steps step))
          (range 0 side))
        (range 0 side))
      (range 0 amount_of_steps))
    (range 1 side).

(** Adding a zero of either sign to a coordinate up to [bound] in size and
    rounding gives the coordinate back. *)
Definition zero_advance_keeps (bound : Z) : bool :=
  forallb (fun start =>
    forallb (fun sign =>
      match (let? x := py_add (PyInt start) (PyFloat (S754_zero sign)) in
             py_round_number x) with
      | Return x => x =? start
      | Raise _ => false
      end)
      [false; true])
    (range (- bound) (bound + 1)).

(** ** Device commands *)

Definition hex_digit (d : Z) : ascii :=
  ascii_of_nat (Z.to_nat (if d <? 10 then 48 + d else 55 + d)).

Fixpoint hex_digits (fuel : nat) (n : Z) (acc : string) : string :=
  match fuel with
  | O => acc
  | S fuel' =>
      let acc' := String (hex_digit (n mod 16)) acc in
      if n / 16 =? 0 then acc' else hex_digits fuel' (n / 16) acc'
  end.

(** The format specification [0>2X]: upper-case hexadecimal, a minus sign
    for a negative number, padded on the left with zeros to two columns. *)
Definition format_02X (n : Z) : string :=
  let digits := hex_digits (S (Z.to_nat (Z.log2 (Z.abs n)))) (Z.abs n) "" in
  let body := if n <? 0 then String "-" digits else digits in
  if (String.length body <? 2)%nat then String "0" body else body.

Definition rgb_to_hex_color (rgb : Color) : string :=
  let '(r, g, b) := rgb in
  String "#" (format_02X r ++ format_02X g ++ format_02X b).

(** [bytearray(l)] accepts only ints in [range(256)]. *)
Definition bytearray (l : list Z) : Py (list Z) :=
  if forallb (fun b => (0 <=? b) && (b <? 256)) l then ret l
  else raise ValueError.

Section Device.

(** [send_command] belongs to the base class [PixooBaseApi], which is not
    part of the sources at hand.  The device behind it is a parameter:
    given the traffic so far and a command, it answers with the [PicId]
    field of its reply (read by [__load_counter] only), or fails. *)
Variable device : list Event -> Command -> option Z.

Definition send_command (c : Command) : Py Z :=
  fun w =>
    let w' := mkWorld (self w) (wire w ++ [Sent c]) in
    match device (wire w) c with
    | Some reply => (Return reply, w')
    | None => (Raise TransportFailure, w')
    end.

Definition send_text (text : string) (xy : Location) (color : Color)
    (identifier font width movement_speed direction : Z) : Py unit :=
  let! p := get in
  if simulated p then ret tt
  else
    let identifier := clamp identifier 0 19 in
    send_command
      (Draw_SendText identifier (fst xy) (snd xy) direction font width
                     movement_speed text (rgb_to_hex_color color) 1) >>
    ret tt.

Definition set_brightness (brightness : Z) : Py unit :=
  let! p := get in
  if simulated p then ret tt
  else
    let brightness := clamp brightness 0 100 in
    send_command (Channel_SetBrightness brightness) >> ret tt.

Definition set_channel (channel : Z) : Py unit :=
  let! p := get in
  if simulated p then ret tt
  else send_command (Channel_SetIndex channel) >> ret tt.

Definition set_clock (clock_id : Z) : Py unit :=
  let! p := get in
  if simulated p then ret tt
  else send_command (Channel_SetClockSelectId clock_id) >> ret tt.

Definition set_custom_page (index : Z) : Py unit :=
  send_command (Channel_SetCustomPageIndex index) >> ret tt.

Definition set_custom_channel (index : Z) : Py unit :=
  set_custom_page index >>
  set_channel 3.

Definition set_face (face_id : Z) : Py unit := set_clock face_id.

Definition set_screen (on : bool) : Py unit :=
  let! p := get in
  if simulated p then ret tt
  else send_command (Channel_OnOffScreen (if on then 1 else 0)) >> ret tt.

Definition set_screen_off : Py unit := set_screen false.
Definition set_screen_on : Py unit := set_screen true.

Definition set_visualizer (equalizer_position : Z) : Py unit :=
  let! p := get in
  if simulated p then ret tt
  else send_command (Channel_SetEqPosition equalizer_position) >> ret tt.

(** ** Transmission controller *)

Definition load_counter : Py unit :=
  let! p := get in
  if simulated p then modify (with_counter 1)
  else
    let! data := send_command Draw_GetHttpGifId in
    modify (with_counter data).

Definition reset_counter : Py unit :=
  let! p := get in
  if simulated p then ret tt
  else send_command Draw_ResetHttpGifId >> ret tt.

Definition send_buffer : Py unit :=
  modify (fun p => with_counter (counter p + 1) p) >>
  let! p := get in
  (if refresh_connection_automatically p
      && (counter p >=? refresh_counter_limit)
   then reset_counter >> modify (with_counter 1)
   else ret tt) >>
  let! p := get in
  if simulated p then
    emit (Displayed (buffer p) (counter p)) >>
    modify (fun p => with_buffers_send (buffers_send p + 1) p)
  else
    let! pic_data := bytearray (buffer p) in
    send_command
      (Draw_SendHttpGif 1 (size p) 0 (counter p) 1000 pic_data) >>
    modify (fun p => with_buffers_send (buffers_send p + 1) p).

Definition push : Py unit := send_buffer.

(** [N] calls of [push] in a row; an exception ends the sequence. *)
Fixpoint push_n (n : nat) : Py unit :=
  match n with
  | O => ret tt
  | S n' => push >> push_n n'
  end.

(** The object before [__init__] has run: the class attributes. *)
Definition class_attributes : Pixoo := mkPixoo 0 0 false true [] 0 0.

(** [__init__] with an explicit address.  [background] is the default
    argument [Palette.BLACK] of [fill], declared in a module that is not
    part of the sources at hand.  The simulator object built at the end is
    represented by the [Displayed] events alone. *)
Definition init (background : Color) (size_ : Z)
    (refresh_connection_automatically_ simulated_ : bool) : Py unit :=
  if negb (bool_decide (size_ ∈ [16; 32; 64])) then raise AssertionError
  else
    modify (fun p =>
      mkPixoo size_ (size_ * size_) simulated_
              refresh_connection_automatically_
              (buffer p) (buffers_send p) (counter p)) >>
    fill background >>
    load_counter >>
    let! p := get in
    if refresh_connection_automatically p
       && (counter p >? refresh_counter_limit)
    then reset_counter
    else ret tt.

End Device.

(** ** Observations used in the statements *)

(** The triple stored for the pixel of index [i]. *)
Definition pixel_at_index (b : list Z) (i : Z) : option Color :=
  match b !! Z.to_nat (3 * i), b !! Z.to_nat (3 * i + 1),
        b !! Z.to_nat (3 * i + 2) with
  | Some r, Some g, Some b' => Some (r, g, b')
  | _, _, _ => None
  end.

Definition pixel_at (p : Pixoo) (xy : Location) : option Color :=
  pixel_at_index (buffer p) (fst xy + snd xy * size p).

Definition on_screen (p : Pixoo) (xy : Location) : Prop :=
  0 <= fst xy < size p /\ 0 <= snd xy < size p.

(** The buffer after the three assignments of [draw_pixel_at_index]. *)
Definition stored (b : list Z) (i : Z) (rgb : Color) : list Z :=
  let '(r, g, b') := clamp_color rgb in
  <[Z.to_nat (i * 3 + 2) := b']>
    (<[Z.to_nat (i * 3 + 1) := g]> (<[Z.to_nat (i * 3) := r]> b)).

(** What [__init__] and [fill] establish and every drawing call keeps. *)
Record consistent (p : Pixoo) : Prop := mkConsistent {
  consistent_side : 0 < size p;
  consistent_count : pixel_count p = size p * size p;
  consistent_length : Z.of_nat (length (buffer p)) = 3 * pixel_count p;
  consistent_bytes : Forall (fun v => 0 <= v <= 255) (buffer p)
}.

(** What a call added to the traffic. *)
Definition emitted {A} (w : World) (r : Outcome A * World) : list Event :=
  drop (length (wire w)) (wire (snd r)).

Definition is_reset (e : Event) : bool :=
  match e with Sent Draw_ResetHttpGifId => true | _ => false end.

Definition is_command (e : Event) : bool :=
  match e with Sent _ => true | Displayed _ _ => false end.

(** How many counter-reset commands went to the device. *)
Definition resets (evs : list Event) : nat :=
  length (List.filter is_reset evs).

(** The commands that went to the device. *)
Definition commands (evs : list Event) : list Event :=
  List.filter is_command evs.

(** Whether the next [push] reaches the limit, and the id of its frame. *)
Definition trips (p : Pixoo) : bool :=
  refresh_connection_automatically p
  && (counter p + 1 >=? refresh_counter_limit).

Definition next_id (p : Pixoo) : Z :=
  if trips p then 1 else counter p + 1.

(** The ids under which frames went out, to the device or the simulator. *)
Fixpoint frame_ids (evs : list Event) : list Z :=
  match evs with
  | [] => []
  | Sent (Draw_SendHttpGif _ _ _ pic_id _ _) :: rest => pic_id :: frame_ids rest
  | Displayed _ frame_id :: rest => frame_id :: frame_ids rest
  | _ :: rest => frame_ids rest
  end.

(** The points visited by the two loops of [draw_filled_rectangle], in
    the order of the visit. *)
Definition rect_points (top_left_xy bottom_right_xy : Location) : list Location :=
  flat_map
    (fun y => map (fun x => (x, y))
                  (range (fst top_left_xy) (fst bottom_right_xy + 1)))
    (range (snd top_left_xy) (snd bottom_right_xy + 1)).

Definition in_rectangle (top_left_xy bottom_right_xy xy : Location) : Prop :=
  fst top_left_xy <= fst xy <= fst bottom_right_xy
  /\ snd top_left_xy <= snd xy <= snd bottom_right_xy.

#[global] Instance in_rectangle_dec tl br xy : Decision (in_rectangle tl br xy).
Proof. unfold in_rectangle. apply _. Defined.

Definition consistentb (p : Pixoo) : bool :=
  (0 <? size p) && (pixel_count p =? size p * size p)
  && (Z.of_nat (length (buffer p)) =? 3 * pixel_count p)
  && forallb (fun v => (0 <=? v) && (v <=? 255)) (buffer p).

(** ** Sessions used as concrete inputs *)

(** A device that accepts every command and reports the given [PicId]. *)
Definition obliging (pic_id : Z) : list Event -> Command -> option Z :=
  fun _ _ => Some pic_id.

(** A device that accepts the counter-reset command and refuses every
    other one. *)
Definition resets_only : list Event -> Command -> option Z :=
  fun _ c => match c with Draw_ResetHttpGifId => Some 0 | _ => None end.

(** A device that is out of reach. *)
Definition unreachable : list Event -> Command -> option Z :=
  fun _ _ => None.

Definition black : Color := (0, 0, 0).

(** [Pixoo(address, size=16)] against a device whose counter is at 0. *)
Definition device16 : World :=
  snd (init (obliging 0) black 16 true false (mkWorld class_attributes [])).

(** The same against a device whose counter is at [pic_id], with
    [refresh_connection_automatically] as given. *)
Definition device16_at (pic_id : Z) (refresh : bool) : World :=
  snd (init (obliging pic_id) black 16 refresh false
            (mkWorld class_attributes [])).

(** [Pixoo(address, size=16, simulated=True)]. *)
Definition simulated16 : World :=
  snd (init (obliging 0) black 16 true true (mkWorld class_attributes [])).

(** ** The remaining methods of the class *)

Definition clear (rgb : Color) : Py unit := fill rgb.

Definition fill_rgb (r g b : Z) : Py unit := fill (r, g, b).

Definition clear_rgb (r g b : Z) : Py unit := fill_rgb r g b.

Definition draw_pixel_at_index_rgb (index r g b : Z) : Py unit :=
  draw_pixel_at_index index (r, g, b).

Definition draw_pixel_at_location_rgb (x y r g b : Z) : Py unit :=
  draw_pixel (x, y) (r, g, b).

Definition draw_line_from_start_to_stop_rgb
    (start_x start_y stop_x stop_y r g b : Z) : Py unit :=
  draw_line (start_x, start_y) (stop_x, stop_y) (r, g, b).

Definition draw_filled_rectangle_from_top_left_to_bottom_right_rgb
    (top_left_x top_left_y bottom_right_x bottom_right_y r g b : Z) : Py unit :=
  draw_filled_rectangle (top_left_x, top_left_y)
                        (bottom_right_x, bottom_right_y) (r, g, b).

(** [__clamp_location] *)
Definition clamp_location (xy : Location) : Py Location :=
  let! p := get in
  ret (clamp (fst xy) 0 (size p - 1), clamp (snd xy) 0 (size p - 1)).

(** [enumerate(l)] *)
Definition enumerate {A} (l : list A) : list (Z * A) :=
  zip (seqZ 0 (Z.of_nat (length l))) l.

Section Glyphs.

(** [retrieve_glyph] comes from the font module, which is not part of the
    sources at hand: a character has a matrix of bits, or none. *)
Variable retrieve_glyph : ascii -> option (list Z).

(** [int(index / 3)] truncates the quotient, hence [Z.quot]. *)
Definition draw_character (character : ascii) (xy : Location) (rgb : Color)
    : Py unit :=
  let matrix := retrieve_glyph character in
  match matrix with
  | Some matrix =>
      for_ (enumerate matrix) (fun '(index, bit) =>
        if bit =? 1 then
          let local_x := index mod 3 in
          let local_y := Z.quot index 3 in
          draw_pixel (fst xy + local_x, snd xy + local_y) rgb
        else ret tt)
  | None => ret tt
  end.

Definition draw_character_at_location_rgb (character : ascii)
    (x y r g b : Z) : Py unit :=
  draw_character character (x, y) (r, g, b).

Definition draw_text (text : string) (xy : Location) (rgb : Color) : Py unit :=
  for_ (enumerate (list_ascii_of_string text)) (fun '(index, character) =>
    draw_character character (index * 4 + fst xy, snd xy) rgb).

Definition draw_text_at_location_rgb (text : string) (x y r g b : Z) : Py unit :=
  draw_text text (x, y) (r, g, b).

End Glyphs.

(** An image as [draw_image] uses it: its [size], and the pixels of its
    conversion to RGB. *)
Record Image : Type := mkImage {
  image_size : Z * Z;
  getpixel : Location -> Color
}.

Section Images.

(** The two resizing operations of the imaging library, which is not part
    of the sources at hand: [ImageOps.pad(image, size, mode)], and the image
    as [image.thumbnail(size, mode)] leaves it. *)
Variable pad : Image -> Z * Z -> Z -> Image.
Variable thumbnail : Image -> Z * Z -> Z -> Image.

(** The image that the loops of [draw_image] go through. *)
Definition fitted (p : Pixoo) (image : Image) (image_resample_mode : Z)
    (pad_resample : bool) : Image :=
  let size_ := image_size image in
  let width := fst size_ in
  let height := snd size_ in
  if (width >? size p) || (height >? size p) then
    if pad_resample then pad image (size p, size p) image_resample_mode
    else thumbnail image (size p, size p) image_resample_mode
  else image.

(** [draw_image] on an image object. *)
Definition draw_image (image : Image) (xy : Location)
    (image_resample_mode : Z) (pad_resample : bool) : Py unit :=
  let! p := get in
  let image := fitted p image image_resample_mode pad_resample in
  let rgb_image := image in
  for_ (range 0 (snd (image_size image))) (fun y =>
    for_ (range 0 (fst (image_size image))) (fun x =>
      let! p := get in
      let location := (x, y) in
      let placed_x := x + fst xy in
      if (size p - 1 <? placed_x) || (placed_x <? 0) then ret tt
      else
        let placed_y := y + snd xy in
        if (size p - 1 <? placed_y) || (placed_y <? 0) then ret tt
        else draw_pixel (placed_x, placed_y) (getpixel rgb_image location))).

Definition draw_image_at_location (image : Image) (x y : Z)
    (image_resample_mode : Z) : Py unit :=
  draw_image image (x, y) image_resample_mode false.

End Images.

Section Timer.

Variable device : list Event -> Command -> option Z.

Definition set_timer (minutes seconds : Z) (start_counter : bool) : Py unit :=
  send_command device
    (Tools_SetTimer minutes seconds (if start_counter then 1 else 0)) >>
  ret tt.

End Timer.

(** ** tools.py *)

(** The commands of the tools, and what a tool object does to its own
    channel: the command goes out, and the call raises when the channel
    fails. *)
Inductive ToolCommand : Type :=
| Tools_SetScoreBoard (blue_score red_score : Z)
| Tools_SetStopWatch (status : Z).

Definition tool_send {S} (channel : list ToolCommand -> ToolCommand -> option Z)
    (c : ToolCommand) (s : S) (sent : list ToolCommand)
    : Outcome unit * (S * list ToolCommand) :=
  (match channel sent c with
   | Some _ => Return tt
   | None => Raise TransportFailure
   end, (s, sent ++ [c])).

Module ScoreBoard.

Record t : Type := mk { blue_score : Z; red_score : Z }.

Section Channel.

Variable channel : list ToolCommand -> ToolCommand -> option Z.

Definition set_scores (blue red : Z) (self : t) (sent : list ToolCommand)
    : Outcome unit * (t * list ToolCommand) :=
  tool_send channel (Tools_SetScoreBoard blue red) (mk blue red) sent.

(** [__init__]: the object does not exist before, so there is no [self]
    to start from. *)
Definition init (start_scores : Z * Z) (sent : list ToolCommand)
    : Outcome unit * (t * list ToolCommand) :=
  let self := mk (fst start_scores) (snd start_scores) in
  set_scores (blue_score self) (red_score self) self sent.

(** The setter of the property [blue_score]. *)
Definition set_blue_score (value : Z) (self : t) (sent : list ToolCommand)
    : Outcome unit * (t * list ToolCommand) :=
  let self := mk value (red_score self) in
  set_scores (blue_score self) (red_score self) self sent.

(** The setter of the property [red_score]. *)
Definition set_red_score (value : Z) (self : t) (sent : list ToolCommand)
    : Outcome unit * (t * list ToolCommand) :=
  let self := mk (blue_score self) value in
  set_scores (blue_score self) (red_score self) self sent.

End Channel.

(** The calls a user can make on a scoreboard. *)
Inductive call : Type :=
| SetScores (blue red : Z)
| SetBlue (value : Z)
| SetRed (value : Z).

Definition perform (channel : list ToolCommand -> ToolCommand -> option Z)
    (c : call) (self : t) (sent : list ToolCommand)
    : Outcome unit * (t * list ToolCommand) :=
  match c with
  | SetScores blue red => set_scores channel blue red self sent
  | SetBlue value => set_blue_score channel value self sent
  | SetRed value => set_red_score channel value self sent
  end.

(** A caller that makes the calls one after the other, going on after a
    call that raised. *)
Fixpoint perform_all (channel : list ToolCommand -> ToolCommand -> option Z)
    (cs : list call) (self : t) (sent : list ToolCommand)
    : t * list ToolCommand :=
  match cs with
  | [] => (self, sent)
  | c :: rest =>
      let '(_, (self', sent')) := perform channel c self sent in
      perform_all channel rest self' sent'
  end.

End ScoreBoard.

Module StopWatch.

Section Channel.

Variable channel : list ToolCommand -> ToolCommand -> option Z.

Definition reset_counter (sent : list ToolCommand)
    : Outcome unit * (unit * list ToolCommand) :=
  tool_send channel (Tools_SetStopWatch 2) tt sent.

Definition start_counter (sent : list ToolCommand)
    : Outcome unit * (unit * list ToolCommand) :=
  tool_send channel (Tools_SetStopWatch 1) tt sent.

Definition stop_counter (sent : list ToolCommand)
    : Outcome unit * (unit * list ToolCommand) :=
  tool_send channel (Tools_SetStopWatch 0) tt sent.

Definition init (sent : list ToolCommand)
    : Outcome unit * (unit * list ToolCommand) :=
  reset_counter sent.

End Channel.

End StopWatch.

(** [get_score_board] and [get_stop_watch] build a tool for the address of
    the session, with the default start scores. *)
Definition get_score_board
    (channel : list ToolCommand -> ToolCommand -> option Z)
    (sent : list ToolCommand) : Outcome unit * (ScoreBoard.t * list ToolCommand) :=
  ScoreBoard.init channel (0, 0) sent.

Definition get_stop_watch
    (channel : list ToolCommand -> ToolCommand -> option Z)
    (sent : list ToolCommand) : Outcome unit * (unit * list ToolCommand) :=
  StopWatch.init channel sent.

(** ** Observations used for the further methods *)

(** The points that [draw_character] draws for a matrix. *)
Definition glyph_points (matrix : list Z) (xy : Location) : list Location :=
  map (fun '(index, _) => (fst xy + index mod 3, snd xy + Z.quot index 3))
      (List.filter (fun '(_, bit) => bit =? 1) (enumerate matrix)).

(** Whether a point of the screen lies under an image placed at [xy]. *)
Definition under_image (image : Image) (xy px : Location) : Prop :=
  0 <= fst px - fst xy < fst (image_size image)
  /\ 0 <= snd px - snd xy < snd (image_size image).

#[global] Instance under_image_dec image xy px : Decision (under_image image xy px).
Proof. unfold under_image. apply _. Defined.

Definition is_byte_color (rgb : Color) : Prop :=
  let '(r, g, b) := rgb in
  0 <= r <= 255 /\ 0 <= g <= 255 /\ 0 <= b <= 255.

(** A glyph table with one glyph, a vertical bar for "I". *)
Definition bar_font (c : ascii) : option (list Z) :=
  if Ascii.eqb c "I" then Some [0; 1; 0; 0; 1; 0; 0; 1; 0] else None.

(** A two by two image, and resizing operations that crop to the target. *)
Definition tiny_image : Image :=
  mkImage (2, 2) (fun l => (fst l * 100, snd l * 100, 300)).

Definition crop (image : Image) (target : Z * Z) (mode : Z) : Image :=
  mkImage (Z.min (fst (image_size image)) (fst target),
           Z.min (snd (image_size image)) (snd target))
          (getpixel image).

(** A channel for the tools that accepts every command. *)
Definition willing : list ToolCommand -> ToolCommand -> option Z :=
  fun _ _ => Some 0.

(** A call that returned, sent nothing and changed at most the buffer,
    leaving it well formed. *)
Definition only_redraws (w : World) (r : Outcome unit * World) : Prop :=
  fst r = Return tt
  /\ exists b, snd r = mkWorld (with_buffer b (self w)) (wire w)
             /\ consistent (with_buffer b (self w)).

Definition returned {A} (o : Outcome A) : bool :=
  match o with Return _ => true | Raise _ => false end.

(** The buffer [fill] builds for a session of the given side. *)
Definition filled (side : Z) (rgb : Color) : list Z :=
  mjoin (replicate (Z.to_nat (side * side))
                   (let '(r, g, b) := clamp_color rgb in [r; g; b])).

(** Unfolds one call of [push] down to the state and the traffic. *)
Ltac unfold_push :=
  unfold push, send_buffer, reset_counter, bytearray, send_command,
    bind, get, modify, emit, ret, raise; simpl.

(** ** Basic facts *)

Example py_round_ties :
  map py_round [1 # 2; 3 # 2; 5 # 2; -1 # 2; -3 # 2; 7 # 4; -7 # 4]%Q
  = [0; 2; 2; 0; -2; 2; -2].
Proof. reflexivity. Qed.

Example rgb_to_hex_color_samples :
  rgb_to_hex_color (255, 0, 10) = "#FF000A"%string
  /\ rgb_to_hex_color (-5, 300, 16) = "#-512C10"%string.
Proof. split; reflexivity. Qed.

Example init_device16 :
  init (obliging 0) black 16 true false (mkWorld class_attributes [])
  = (Return tt,
     mkWorld (mkPixoo 16 256 false true (replicate 768 0) 0 0)
             [Sent Draw_GetHttpGifId]).
Proof. vm_compute. reflexivity. Qed.

Example init_rejects_size :
  fst (init (obliging 0) black 48 true false (mkWorld class_attributes []))
  = Raise AssertionError.
Proof. reflexivity. Qed.

Lemma clamp_spec v lo hi : lo <= hi -> clamp v lo hi = Z.max lo (Z.min v hi).
Proof. unfold clamp. intros. repeat case_match; lia. Qed.

Lemma clamp_bounds v : 0 <= clamp v 0 255 <= 255.
Proof. rewrite clamp_spec; lia. Qed.

Lemma with_buffer_self w : mkWorld (with_buffer (buffer (self w)) (self w)) (wire w) = w.
Proof. by destruct w as [[] ?]. Qed.

Lemma list_setitem_inside l i v :
  0 <= i < Z.of_nat (length l) ->
  list_setitem l i v = Some (<[Z.to_nat i := v]> l).
Proof.
  intros H. unfold list_setitem.
  destruct (Z.leb_spec 0 i), (Z.ltb_spec i (Z.of_nat (length l))); simpl; [done | lia..].
Qed.

Lemma setitem_inside w i v :
  0 <= i < Z.of_nat (length (buffer (self w))) ->
  setitem i v w
  = (Return tt, mkWorld (with_buffer (<[Z.to_nat i := v]> (buffer (self w))) (self w)) (wire w)).
Proof.
  intros H. unfold setitem, bind, get. simpl. by rewrite list_setitem_inside.
Qed.

(** A nonnegative assignment never touches another cell, whether it raises
    or not. *)
Lemma setitem_frame w i v :
  0 <= i ->
  exists b, snd (setitem i v w) = mkWorld (with_buffer b (self w)) (wire w)
    /\ length b = length (buffer (self w))
    /\ forall j : nat, j <> Z.to_nat i -> b !! j = buffer (self w) !! j.
Proof.
  intros Hi. unfold setitem, bind, get, list_setitem. simpl.
  destruct (Z.leb_spec 0 i); [|lia]. simpl.
  destruct (Z.ltb_spec i (Z.of_nat (length (buffer (self w))))); simpl.
  - eexists. split; [done|]. split; [by rewrite length_insert|].
    intros j Hj. by rewrite list_lookup_insert_ne.
  - destruct (Z.ltb_spec i 0); [lia|]. rewrite andb_false_r. simpl.
    exists (buffer (self w)). by rewrite with_buffer_self.
Qed.

Lemma draw_pixel_at_index_inside w i rgb :
  0 <= i < pixel_count (self w) ->
  Z.of_nat (length (buffer (self w))) = 3 * pixel_count (self w) ->
  draw_pixel_at_index i rgb w
  = (Return tt, mkWorld (with_buffer (stored (buffer (self w)) i rgb) (self w)) (wire w)).
Proof.
  intros Hi Hlen. unfold draw_pixel_at_index, bind at 1, get. simpl.
  destruct (Z.ltb_spec i 0); [lia|].
  destruct (Z.geb_spec i (pixel_count (self w))); [lia|]. simpl.
  unfold stored. destruct (clamp_color rgb) as [[r g] b].
  unfold bind. rewrite setitem_inside by lia. simpl.
  rewrite setitem_inside by (simpl; rewrite length_insert; lia). simpl.
  rewrite setitem_inside by (simpl; rewrite !length_insert; lia). simpl.
  done.
Qed.

Lemma draw_pixel_outside w xy rgb :
  fst xy < 0 \/ fst xy >= size (self w) \/ snd xy < 0 \/ snd xy >= size (self w) ->
  draw_pixel xy rgb w = (Return tt, w).
Proof.
  intros H. unfold draw_pixel, bind, get. simpl.
  destruct (Z.ltb_spec (fst xy) 0), (Z.geb_spec (fst xy) (size (self w))),
    (Z.ltb_spec (snd xy) 0), (Z.geb_spec (snd xy) (size (self w)));
    simpl; try done; lia.
Qed.

Lemma draw_pixel_on_screen w xy rgb :
  on_screen (self w) xy ->
  draw_pixel xy rgb w
  = draw_pixel_at_index (fst xy + snd xy * size (self w)) rgb w.
Proof.
  intros [[] []]. unfold draw_pixel, bind at 1, get. simpl.
  destruct (Z.ltb_spec (fst xy) 0), (Z.geb_spec (fst xy) (size (self w))),
    (Z.ltb_spec (snd xy) 0), (Z.geb_spec (snd xy) (size (self w)));
    simpl; try done; lia.
Qed.

Lemma index_inside p xy :
  pixel_count p = size p * size p -> on_screen p xy ->
  0 <= fst xy + snd xy * size p < pixel_count p.
Proof. intros -> [[] []]. nia. Qed.

Lemma index_injective p xy xy' :
  on_screen p xy -> on_screen p xy' ->
  fst xy + snd xy * size p = fst xy' + snd xy' * size p -> xy = xy'.
Proof.
  destruct xy as [x y], xy' as [x' y']. intros [[] []] [[] []] Heq. simpl in *.
  assert (y = y') by nia. subst. f_equal. lia.
Qed.

Lemma draw_pixel_inside w xy rgb :
  consistent (self w) -> on_screen (self w) xy ->
  draw_pixel xy rgb w
  = (Return tt,
     mkWorld (with_buffer (stored (buffer (self w))
                                  (fst xy + snd xy * size (self w)) rgb)
                          (self w)) (wire w)).
Proof.
  intros [] Hon. rewrite draw_pixel_on_screen by done.
  apply draw_pixel_at_index_inside; [by apply index_inside | done].
Qed.

Lemma length_stored b i rgb : length (stored b i rgb) = length b.
Proof. unfold stored. destruct (clamp_color rgb) as [[??]?]. by rewrite !length_insert. Qed.

Lemma lookup_stored_ne b i rgb (j : nat) :
  0 <= i ->
  j <> Z.to_nat (i * 3) -> j <> Z.to_nat (i * 3 + 1) -> j <> Z.to_nat (i * 3 + 2) ->
  stored b i rgb !! j = b !! j.
Proof.
  intros. unfold stored. destruct (clamp_color rgb) as [[??]?].
  by rewrite !list_lookup_insert_ne.
Qed.

Lemma pixel_at_index_stored b i rgb :
  0 <= i -> 3 * i + 2 < Z.of_nat (length b) ->
  pixel_at_index (stored b i rgb) i = Some (clamp_color rgb).
Proof.
  intros. unfold pixel_at_index, stored. destruct (clamp_color rgb) as [[r g] b'].
  replace (3 * i) with (i * 3) by lia.
  rewrite list_lookup_insert_ne by lia.
  rewrite list_lookup_insert_ne by lia.
  rewrite list_lookup_insert_eq by lia.
  rewrite list_lookup_insert_ne by lia.
  rewrite list_lookup_insert_eq by (rewrite length_insert; lia).
  rewrite list_lookup_insert_eq by (rewrite !length_insert; lia).
  done.
Qed.

Lemma pixel_at_index_stored_ne b i j rgb :
  0 <= i -> 0 <= j -> i <> j ->
  pixel_at_index (stored b i rgb) j = pixel_at_index b j.
Proof.
  intros. unfold pixel_at_index.
  rewrite !(lookup_stored_ne b i rgb) by lia. done.
Qed.

Lemma Forall_stored b i rgb :
  Forall (fun v => 0 <= v <= 255) b ->
  Forall (fun v => 0 <= v <= 255) (stored b i rgb).
Proof.
  intros Hb. unfold stored. destruct rgb as [[r g] b']. simpl.
  repeat apply Forall_insert; auto using clamp_bounds.
Qed.

Lemma consistent_stored p i rgb :
  consistent p -> consistent (with_buffer (stored (buffer p) i rgb) p).
Proof.
  intros [? ? ? ?]. split; simpl; try done.
  - by rewrite length_stored.
  - by apply Forall_stored.
Qed.

Lemma on_screen_or_outside p xy :
  on_screen p xy
  \/ (fst xy < 0 \/ fst xy >= size p \/ snd xy < 0 \/ snd xy >= size p).
Proof. unfold on_screen. lia. Qed.

(** ** Loops *)

Lemma for_app {A} (xs ys : list A) body w :
  for_ (xs ++ ys) body w = (for_ xs body >> for_ ys body) w.
Proof.
  revert w. induction xs as [|x xs IH]; intros w; simpl; [done|].
  unfold bind in *. destruct (body x w) as [[[]|e] w1]; [|done]. apply IH.
Qed.

Lemma for_nested {A B} (ys : list B) (xs : list A) (body : A * B -> Py unit) w :
  for_ ys (fun y => for_ xs (fun x => body (x, y))) w
  = for_ (flat_map (fun y => map (fun x => (x, y)) xs) ys) body w.
Proof.
  revert w. induction ys as [|y ys IH]; intros w; simpl; [done|].
  rewrite for_app. unfold bind.
  assert (Hrow : forall w', for_ xs (fun x => body (x, y)) w'
                         = for_ (map (fun x => (x, y)) xs) body w').
  { clear. induction xs as [|x xs IH]; intros w'; simpl; [done|].
    unfold bind. destruct (body (x, y) w') as [[[]|e] w1]; [apply IH | done]. }
  rewrite Hrow. destruct (for_ _ body w) as [[[]|e] w1]; [apply IH | done].
Qed.

(** Drawing a list of points in one colour: the call returns, and a pixel of
    the screen holds the clamped colour when it is among the points and its
    former value otherwise. *)
Lemma draw_pixels_run ps rgb w :
  consistent (self w) ->
  exists b,
    for_ ps (fun px => draw_pixel px rgb) w
    = (Return tt, mkWorld (with_buffer b (self w)) (wire w))
    /\ consistent (with_buffer b (self w))
    /\ forall xy, on_screen (self w) xy ->
         pixel_at_index b (fst xy + snd xy * size (self w))
         = if decide (xy ∈ ps) then Some (clamp_color rgb)
           else pixel_at (self w) xy.
Proof.
  revert w. induction ps as [|px ps IH]; intros w Hc.
  - exists (buffer (self w)). rewrite with_buffer_self.
    split; [done|]. split; [by destruct w as [[] ?]|]. intros xy _.
    case_decide as Hin; [by apply not_elem_of_nil in Hin | done].
  - simpl. unfold bind.
    destruct (on_screen_or_outside (self w) px) as [Hon|Hout].
    + rewrite draw_pixel_inside by done.
      set (i := fst px + snd px * size (self w)).
      set (w1 := mkWorld _ _).
      destruct (IH w1) as (b & Hrun & Hcb & Hpix).
      { by apply consistent_stored. }
      subst w1. simpl in Hrun, Hcb, Hpix.
      exists b. split; [by rewrite Hrun|]. split; [done|].
      intros xy Hxy. rewrite (Hpix xy Hxy).
      destruct (decide (xy ∈ ps)) as [Hin|Hin].
      * rewrite decide_True by (by right). done.
      * destruct (decide (xy = px)) as [->|Hne].
        -- rewrite decide_True by left. unfold pixel_at. simpl.
           destruct Hc. pose proof (index_inside _ _ consistent_count0 Hon).
           apply pixel_at_index_stored; fold i; lia.
        -- rewrite decide_False by (intros [?|?]%elem_of_cons; done).
           unfold pixel_at. simpl. destruct Hc.
           pose proof (index_inside _ _ consistent_count0 Hon).
           pose proof (index_inside _ _ consistent_count0 Hxy).
           apply pixel_at_index_stored_ne; [fold i; lia | lia |].
           intros Heq. apply Hne. symmetry. by eapply index_injective.
    + rewrite draw_pixel_outside by done.
      destruct (IH w Hc) as (b & Hrun & Hcb & Hpix).
      exists b. split; [done|]. split; [done|].
      intros xy Hxy. rewrite (Hpix xy Hxy).
      destruct (decide (xy ∈ ps)) as [Hin|Hin].
      * rewrite decide_True by (by right). done.
      * rewrite decide_False; [done|].
        intros [->|?]%elem_of_cons; [|done].
        destruct Hxy as [[] []]. lia.
Qed.

(** ** fill *)

Lemma fill_loop {A} (xs : list A) (triple : list Z) w :
  for_ xs (fun _ => modify (fun p => with_buffer (buffer p ++ triple) p)) w
  = (Return tt,
     mkWorld (with_buffer (buffer (self w) ++ mjoin (replicate (length xs) triple))
                          (self w)) (wire w)).
Proof.
  revert w. induction xs as [|x xs IH]; intros w; simpl.
  - unfold ret. by rewrite app_nil_r, with_buffer_self.
  - unfold bind, modify at 1. rewrite IH. simpl. by rewrite <- app_assoc.
Qed.

Lemma fill_run rgb w :
  fill rgb w
  = (Return tt,
     mkWorld (with_buffer
                (mjoin (replicate (Z.to_nat (pixel_count (self w)))
                                  (let '(r, g, b) := clamp_color rgb in [r; g; b])))
                (self w)) (wire w)).
Proof.
  unfold fill, bind at 1, modify at 1.
  destruct (clamp_color rgb) as [[r g] b]. unfold bind, get. simpl.
  rewrite fill_loop. simpl. unfold range. rewrite length_seqZ.
  by rewrite Z.sub_0_r.
Qed.

Lemma length_join_triples n (r g b : Z) :
  length (mjoin (replicate n [r; g; b])) = (3 * n)%nat.
Proof. induction n as [|n IH]; simpl; [done|]. rewrite IH. lia. Qed.

Lemma fill_consistent rgb w :
  0 < size (self w) -> pixel_count (self w) = size (self w) * size (self w) ->
  consistent (self (snd (fill rgb w))).
Proof.
  intros Hs Hc. rewrite fill_run. simpl.
  destruct rgb as [[r g] b]. simpl. split; simpl; try done.
  - rewrite length_join_triples. nia.
  - apply Forall_join, Forall_replicate.
    repeat constructor; apply clamp_bounds.
Qed.

Lemma consistentb_true p : consistentb p = true -> consistent p.
Proof.
  unfold consistentb. rewrite !andb_true_iff.
  intros [[[H1 H2] H3] H4]. split; [lia..|].
  rewrite forallb_forall in H4. apply Forall_forall. intros v Hv.
  apply list_elem_of_In, H4 in Hv. lia.
Qed.

Lemma draw_pixel_at_index_frame w i rgb :
  0 <= i ->
  exists b,
    snd (draw_pixel_at_index i rgb w) = mkWorld (with_buffer b (self w)) (wire w)
    /\ length b = length (buffer (self w))
    /\ forall j : nat,
         j <> Z.to_nat (i * 3) -> j <> Z.to_nat (i * 3 + 1) ->
         j <> Z.to_nat (i * 3 + 2) -> b !! j = buffer (self w) !! j.
Proof.
  intros Hi. unfold draw_pixel_at_index, bind at 1, get. simpl.
  destruct ((i <? 0) || (i >=? pixel_count (self w))).
  { exists (buffer (self w)). by rewrite with_buffer_self. }
  destruct (clamp_color rgb) as [[r g] b']. unfold bind.
  destruct (setitem_frame w (i * 3) r) as (b1 & H1 & L1 & F1); [lia|].
  destruct (setitem (i * 3) r w) as [[[]|e] w1]; simpl in H1; subst w1.
  2: { exists b1. auto. }
  destruct (setitem_frame (mkWorld (with_buffer b1 (self w)) (wire w)) (i * 3 + 1) g)
    as (b2 & H2 & L2 & F2); [lia|].
  destruct (setitem (i * 3 + 1) g _) as [[[]|e] w2]; simpl in H2, L2, F2; subst w2.
  2: { exists b2. split; [done|]. split; [congruence|].
       intros j ? ? ?. rewrite F2, F1; done. }
  match goal with
  | |- context [setitem (i * 3 + 2) b' ?w2] =>
      destruct (setitem_frame w2 (i * 3 + 2) b') as (b3 & H3 & L3 & F3); [lia|]
  end.
  exists b3. split; [by rewrite H3|]. simpl in L3, F3. split; [congruence|].
  intros j ? ? ?. rewrite F3, F2, F1; done.
Qed.

Lemma elem_of_range lo hi k : k ∈ range lo hi <-> lo <= k < hi.
Proof. unfold range. rewrite elem_of_seqZ. lia. Qed.

Lemma elem_of_rect_points tl br xy :
  xy ∈ rect_points tl br <-> in_rectangle tl br xy.
Proof.
  unfold rect_points, in_rectangle. rewrite list_elem_of_In, in_flat_map.
  split.
  - intros (y & Hy & Hx). apply in_map_iff in Hx as (x & <- & Hx).
    apply list_elem_of_In, elem_of_range in Hy.
    apply list_elem_of_In, elem_of_range in Hx. simpl. lia.
  - intros [Hx Hy]. exists (snd xy). split.
    + apply list_elem_of_In, elem_of_range. lia.
    + apply in_map_iff. exists (fst xy). split; [by destruct xy|].
      apply list_elem_of_In, elem_of_range. lia.
Qed.

Lemma draw_filled_rectangle_points tl br rgb w :
  draw_filled_rectangle tl br rgb w
  = for_ (rect_points tl br) (fun px => draw_pixel px rgb) w.
Proof.
  unfold draw_filled_rectangle, rect_points.
  apply (for_nested _ _ (fun px => draw_pixel px rgb)).
Qed.

(** ** Frame buffer: the claims *)

(** C5.  For a side of 16, 32 or 64 and any colour triple, [fill] returns
    without an exception, and the buffer it leaves consists of [side * side]
    consecutive copies of the clamped triple, hence has length
    [3 * side * side]. *)
Theorem fill_repeats_clamped_color w rgb :
  size (self w) = 16 \/ size (self w) = 32 \/ size (self w) = 64 ->
  pixel_count (self w) = size (self w) * size (self w) ->
  let s := size (self w) in
  let r := fill rgb w in
  fst r = Return tt
  /\ buffer (self (snd r))
     = mjoin (replicate (Z.to_nat (s * s))
                        (let '(r, g, b) := clamp_color rgb in [r; g; b]))
  /\ Z.of_nat (length (buffer (self (snd r)))) = 3 * s * s.
Proof.
  intros Hs Hc s r. subst r. rewrite fill_run. simpl. rewrite Hc.
  split; [done|]. split; [done|].
  destruct (clamp_color rgb) as [[r g] b]. rewrite length_join_triples.
  subst s. lia.
Qed.

Lemma fill_repeats_clamped_color_witness :
  let r := fill (300, -1, 7) device16 in
  fst r = Return tt
  /\ buffer (self (snd r))
     = mjoin (replicate (Z.to_nat (16 * 16)) [255; 0; 7])
  /\ Z.of_nat (length (buffer (self (snd r)))) = 3 * 16 * 16.
Proof.
  apply (fill_repeats_clamped_color device16 (300, -1, 7)).
  - left. reflexivity.
  - reflexivity.
Defined.

(** C6.  A coordinate with [x < 0], [x >= side], [y < 0] or [y >= side]
    given to [draw_pixel], and an index outside [[0, side^2 - 1]] given to
    [draw_pixel_at_index], return without an exception and leave the
    buffer (and the rest of the session) as it was. *)
Theorem out_of_range_is_ignored w xy i rgb :
  pixel_count (self w) = size (self w) * size (self w) ->
  fst xy < 0 \/ fst xy >= size (self w) \/ snd xy < 0 \/ snd xy >= size (self w) ->
  i < 0 \/ i > size (self w) * size (self w) - 1 ->
  draw_pixel xy rgb w = (Return tt, w)
  /\ draw_pixel_at_index i rgb w = (Return tt, w).
Proof.
  intros Hc Hxy Hi. split; [by apply draw_pixel_outside|].
  unfold draw_pixel_at_index, bind, get. simpl.
  destruct (Z.ltb_spec i 0), (Z.geb_spec i (pixel_count (self w)));
    simpl; try done; lia.
Qed.

Lemma out_of_range_is_ignored_witness :
  draw_pixel (16, 3) (1, 2, 3) device16 = (Return tt, device16)
  /\ draw_pixel_at_index 256 (1, 2, 3) device16 = (Return tt, device16).
Proof.
  apply (out_of_range_is_ignored device16 (16, 3) 256 (1, 2, 3)).
  - reflexivity.
  - right. left. vm_compute. discriminate.
  - right. vm_compute. reflexivity.
Defined.

(** C7.  On a pixel of the screen [draw_pixel] returns and stores, for each
    component, the input clamped to [[0, 255]]; the triple (-5, 300, 128) is
    stored as (0, 255, 128). *)
Theorem draw_pixel_stores_clamped w xy rgb :
  consistent (self w) -> on_screen (self w) xy ->
  let r := draw_pixel xy rgb w in
  fst r = Return tt
  /\ pixel_at (self (snd r)) xy
     = Some (let '(r, g, b) := rgb in
             (Z.max 0 (Z.min r 255), Z.max 0 (Z.min g 255), Z.max 0 (Z.min b 255)))
  /\ (rgb = (-5, 300, 128) -> pixel_at (self (snd r)) xy = Some (0, 255, 128)).
Proof.
  intros Hc Hon r. subst r. rewrite draw_pixel_inside by done. simpl.
  assert (Hpx : pixel_at
    (with_buffer (stored (buffer (self w)) (fst xy + snd xy * size (self w)) rgb)
                 (self w)) xy = Some (clamp_color rgb)).
  { unfold pixel_at. simpl. destruct Hc.
    pose proof (index_inside _ _ consistent_count0 Hon).
    apply pixel_at_index_stored; lia. }
  rewrite Hpx. split; [done|]. split.
  - destruct rgb as [[r g] b]. simpl. by rewrite !clamp_spec.
  - by intros ->.
Qed.

Lemma draw_pixel_stores_clamped_witness :
  let r := draw_pixel (3, 4) (-5, 300, 128) device16 in
  fst r = Return tt
  /\ pixel_at (self (snd r)) (3, 4)
     = Some (Z.max 0 (Z.min (-5) 255), Z.max 0 (Z.min 300 255),
             Z.max 0 (Z.min 128 255))
  /\ ((-5, 300, 128) = (-5, 300, 128)
      -> pixel_at (self (snd r)) (3, 4) = Some (0, 255, 128)).
Proof.
  apply (draw_pixel_stores_clamped device16 (3, 4) (-5, 300, 128)).
  - apply consistentb_true. vm_compute. reflexivity.
  - vm_compute. intuition discriminate.
Defined.

(** C8.  On a pixel of the screen, [draw_pixel (x, y)] and
    [draw_pixel_at_index (x + y * side)] have the same outcome and leave the
    same session, whatever the buffer was; the index is a valid one. *)
Theorem draw_pixel_agrees_with_index w xy rgb :
  on_screen (self w) xy ->
  draw_pixel xy rgb w
  = draw_pixel_at_index (fst xy + snd xy * size (self w)) rgb w
  /\ 0 <= fst xy + snd xy * size (self w) < size (self w) * size (self w).
Proof.
  intros Hon. split; [by apply draw_pixel_on_screen|].
  destruct Hon as [[] []]. nia.
Qed.

Lemma draw_pixel_agrees_with_index_witness :
  draw_pixel (15, 15) (9, 8, 7) device16
  = draw_pixel_at_index (15 + 15 * size (self device16)) (9, 8, 7) device16
  /\ 0 <= 15 + 15 * size (self device16)
        < size (self device16) * size (self device16).
Proof.
  apply (draw_pixel_agrees_with_index device16 (15, 15) (9, 8, 7)).
  vm_compute. intuition discriminate.
Defined.

(** C10.  On a pixel of the screen, [draw_pixel] leaves the length of the
    buffer unchanged and changes at most the bytes at offsets
    [3 * (x + y * side)], [+ 1] and [+ 2]; nothing else in the session
    changes and nothing is sent. *)
Theorem draw_pixel_frame w xy rgb :
  on_screen (self w) xy ->
  let i := fst xy + snd xy * size (self w) in
  let w' := snd (draw_pixel xy rgb w) in
  w' = mkWorld (with_buffer (buffer (self w')) (self w)) (wire w)
  /\ length (buffer (self w')) = length (buffer (self w))
  /\ forall j : nat,
       Z.of_nat j <> 3 * i -> Z.of_nat j <> 3 * i + 1 -> Z.of_nat j <> 3 * i + 2 ->
       buffer (self w') !! j = buffer (self w) !! j.
Proof.
  intros Hon i w'. subst w'. rewrite draw_pixel_on_screen by done. fold i.
  assert (0 <= i) by (destruct Hon as [[] []]; subst i; nia).
  destruct (draw_pixel_at_index_frame w i rgb) as (b & -> & Hlen & Hfr); [done|].
  simpl. split; [done|]. split; [done|].
  intros j ? ? ?. apply Hfr; lia.
Qed.

Lemma draw_pixel_frame_witness :
  let i := 2 + 1 * size (self device16) in
  let w' := snd (draw_pixel (2, 1) (9, 8, 7) device16) in
  w' = mkWorld (with_buffer (buffer (self w')) (self device16)) (wire device16)
  /\ length (buffer (self w')) = length (buffer (self device16))
  /\ forall j : nat,
       Z.of_nat j <> 3 * i -> Z.of_nat j <> 3 * i + 1 -> Z.of_nat j <> 3 * i + 2 ->
       buffer (self w') !! j = buffer (self device16) !! j.
Proof.
  apply (draw_pixel_frame device16 (2, 1) (9, 8, 7)).
  vm_compute. intuition discriminate.
Defined.

(** ** Rasterizer: the claims *)

(** C9.  [draw_filled_rectangle] returns, sends nothing, and sets to the
    clamped colour exactly the pixels of the screen that lie in the
    inclusive rectangle between the two corners, leaving every other pixel
    as it was; with the corners inverted on an axis it changes nothing. *)
Theorem draw_filled_rectangle_writes_rectangle w tl br rgb :
  consistent (self w) ->
  let r := draw_filled_rectangle tl br rgb w in
  fst r = Return tt
  /\ wire (snd r) = wire w
  /\ length (buffer (self (snd r))) = length (buffer (self w))
  /\ (forall xy, on_screen (self w) xy ->
        pixel_at (self (snd r)) xy
        = if decide (in_rectangle tl br xy) then Some (clamp_color rgb)
          else pixel_at (self w) xy)
  /\ (fst br < fst tl \/ snd br < snd tl -> r = (Return tt, w)).
Proof.
  intros Hc r. subst r. rewrite draw_filled_rectangle_points.
  destruct (draw_pixels_run (rect_points tl br) rgb w Hc) as (b & Hrun & Hcb & Hpix).
  rewrite Hrun. simpl. split; [done|]. split; [done|]. split.
  { destruct Hc, Hcb. simpl in *. lia. }
  split.
  - intros xy Hxy. unfold pixel_at at 1. simpl. rewrite (Hpix xy Hxy).
    destruct (decide (xy ∈ rect_points tl br)) as [Hin|Hin],
             (decide (in_rectangle tl br xy)) as [Hr|Hr]; try done;
      rewrite elem_of_rect_points in Hin; done.
  - intros Hinv. rewrite <- Hrun.
    assert (Hnil : rect_points tl br = []).
    { destruct (rect_points tl br) as [|xy ps] eqn:E; [done|].
      assert (Hin : xy ∈ rect_points tl br) by (rewrite E; left).
      apply elem_of_rect_points in Hin. unfold in_rectangle in Hin. lia. }
    by rewrite Hnil.
Qed.

Lemma draw_filled_rectangle_writes_rectangle_witness :
  let r := draw_filled_rectangle (2, 2) (1, 1) (9, 8, 7) device16 in
  fst r = Return tt
  /\ wire (snd r) = wire device16
  /\ length (buffer (self (snd r))) = length (buffer (self device16))
  /\ (forall xy, on_screen (self device16) xy ->
        pixel_at (self (snd r)) xy
        = if decide (in_rectangle (2, 2) (1, 1) xy) then Some (clamp_color (9, 8, 7))
          else pixel_at (self device16) xy)
  /\ (1 < 2 \/ 1 < 2 -> r = (Return tt, device16)).
Proof.
  apply (draw_filled_rectangle_writes_rectangle device16 (2, 2) (1, 1) (9, 8, 7)).
  apply consistentb_true. vm_compute. reflexivity.
Defined.

Lemma minimum_amount_of_steps_same p : minimum_amount_of_steps p p = 0.
Proof. unfold minimum_amount_of_steps. rewrite !Z.sub_diag. reflexivity. Qed.

Lemma fold_line_spec (point : Z -> Outcome Location) (steps : list Z)
    (acc line : gset Location) :
  fold_outcome (fun line step => let? pixel := point step in
                                 Return ({[ pixel ]} ∪ line)) steps acc
  = Return line ->
  (forall xy, xy ∈ line
     <-> xy ∈ acc \/ exists step, step ∈ steps /\ point step = Return xy)
  /\ (base.size line <= base.size acc + length steps)%nat.
Proof.
  revert acc. induction steps as [|s steps IH]; intros acc; simpl.
  - intros [= <-]. split; [|lia]. intros xy. split; [by left|].
    intros [?|(? & []%not_elem_of_nil & _)]; done.
  - destruct (point s) as [pixel|e] eqn:Hs; [|done]. intros Hfold.
    destruct (IH _ Hfold) as [Hin Hsize]. split.
    + intros xy. rewrite Hin, elem_of_union, elem_of_singleton. split.
      * intros [[->|?]|(step & ? & ?)];
          [right; exists s|by left|right; exists step];
          split; try done; by constructor.
      * intros [?|(step & [->|?]%elem_of_cons & Hp)].
        -- by left; right.
        -- left; left. congruence.
        -- right. by exists step.
    + etrans; [exact Hsize|]. rewrite size_union_alt, size_singleton.
      assert (base.size (acc ∖ {[pixel]}) <= base.size acc)%nat; [|lia].
      apply subseteq_size. apply subseteq_difference_l. done.
Qed.

Lemma elem_of_line_points start_xy stop_xy line xy :
  line_points start_xy stop_xy = Return line ->
  (xy ∈ line
   <-> exists step,
         0 <= step < minimum_amount_of_steps start_xy stop_xy
         /\ line_point start_xy stop_xy
              (minimum_amount_of_steps start_xy stop_xy) step = Return xy).
Proof.
  unfold line_points. intros Hfold.
  apply fold_line_spec in Hfold as [Hin _]. rewrite Hin. split.
  - intros [[]%not_elem_of_empty|(step & Hstep & Hp)].
    apply elem_of_range in Hstep. by exists step.
  - intros (step & Hstep & Hp). right. exists step.
    split; [by apply elem_of_range | done].
Qed.

(** What [draw_line] does once the set is built: it returns, and sets to
    the clamped colour the pixels of the screen that are in the set. *)
Lemma draw_line_run w start_xy stop_xy rgb line :
  line_points start_xy stop_xy = Return line ->
  consistent (self w) ->
  exists b,
    draw_line start_xy stop_xy rgb w
    = (Return tt, mkWorld (with_buffer b (self w)) (wire w))
    /\ consistent (with_buffer b (self w))
    /\ forall xy, on_screen (self w) xy ->
         pixel_at_index b (fst xy + snd xy * size (self w))
         = if decide (xy ∈ line)
           then Some (clamp_color rgb) else pixel_at (self w) xy.
Proof.
  intros Hline Hc. unfold draw_line, bind, lift. rewrite Hline.
  destruct (draw_pixels_run (elements line) rgb w Hc)
    as (b & Hrun & Hcb & Hpix).
  exists b. split; [done|]. split; [done|].
  intros xy Hxy. rewrite (Hpix xy Hxy).
  destruct (decide (xy ∈ elements line)) as [Hin|Hin],
           (decide (xy ∈ line)) as [Hl|Hl]; try done;
    rewrite elem_of_elements in Hin; done.
Qed.

(** When the first loop raises, nothing has been drawn. *)
Lemma draw_line_raises w start_xy stop_xy rgb e :
  line_points start_xy stop_xy = Raise e ->
  draw_line start_xy stop_xy rgb w = (Raise e, w).
Proof. intros Hline. unfold draw_line, bind, lift. by rewrite Hline. Qed.

(** C1.  The loop of [draw_line] runs over [range(amount_of_steps)], which
    stops one short of the last step: a line from a point to itself draws
    nothing, and the line from (0,0) to (3,0) consists of (0,0), (1,0) and
    (2,0), so that pixel (3,0) keeps its former colour. *)
Theorem draw_line_stops_one_step_short :
  (forall w p rgb, draw_line p p rgb w = (Return tt, w))
  /\ line_points (0, 0) (3, 0) = Return {[ (0, 0); (1, 0); (2, 0) ]}
  /\ (let w' := snd (draw_line (0, 0) (3, 0) (255, 255, 255) device16) in
      pixel_at (self device16) (3, 0) = Some (0, 0, 0)
      /\ pixel_at (self w') (2, 0) = Some (255, 255, 255)
      /\ pixel_at (self w') (3, 0) = Some (0, 0, 0)).
Proof.
  split; [|split].
  - intros w p rgb. unfold draw_line, line_points, bind, lift.
    rewrite minimum_amount_of_steps_same. simpl. by rewrite elements_empty.
  - vm_compute. reflexivity.
  - vm_compute. done.
Qed.

(** ** Transmission controller: one call of [push] *)

Lemma push_step device w :
  let p := self w in
  let r := push device w in
  exists evs,
    wire (snd r) = wire w ++ evs
    /\ simulated (self (snd r)) = simulated p
    /\ refresh_connection_automatically (self (snd r))
       = refresh_connection_automatically p
    /\ (simulated p = true -> fst r = Return tt)
    /\ (fst r = Return tt -> counter (self (snd r)) = next_id p)
    /\ (trips p = false -> counter (self (snd r)) = counter p + 1)
    /\ resets evs = (if trips p && negb (simulated p) then 1%nat else 0%nat)
    /\ (trips p && negb (simulated p) = true ->
        exists rest, evs = Sent Draw_ResetHttpGifId :: rest)
    /\ (simulated p = true -> commands evs = [])
    /\ (forall id, id ∈ frame_ids evs -> id = next_id p)
    /\ (fst r = Return tt -> frame_ids evs = [next_id p]).
Proof.
  destruct w as [[sz pc sim refr buf bs cnt] wi].
  intros p r. subst p r. unfold next_id, trips. unfold_push.
  destruct sim, refr, (cnt + 1 >=? refresh_counter_limit) eqn:Hlimit; cbn.
  all: repeat match goal with
       | |- context [match ?answer with Some _ => _ | None => _ end] =>
           destruct answer eqn:?; cbn
       | |- context [forallb ?f ?l] => destruct (forallb f l) eqn:?; cbn
       end.
  all: eexists; split;
    [first [ symmetry; apply app_nil_r | reflexivity
           | rewrite <- app_assoc; reflexivity ]|].
  all: cbn; repeat split; try done; eauto.
  all: intros id Hid; repeat (apply elem_of_cons in Hid as [->|Hid]; [done|]);
    by apply elem_of_nil in Hid.
Qed.

(** The push that reaches the limit, by the outcome of the reset routine:
    once the routine has returned the counter is 1, whatever becomes of the
    frame; when the reset command fails the push ends there, with the
    counter as incremented. *)
Lemma push_at_limit device w :
  let p := self w in
  let r := push device w in
  trips p = true ->
  (simulated p = true \/ device (wire w) Draw_ResetHttpGifId <> None ->
     counter (self (snd r)) = 1)
  /\ (simulated p = false -> device (wire w) Draw_ResetHttpGifId = None ->
        fst r = Raise TransportFailure
        /\ counter (self (snd r)) = counter p + 1
        /\ wire (snd r) = wire w ++ [Sent Draw_ResetHttpGifId]).
Proof.
  destruct w as [[sz pc sim refr buf bs cnt] wi].
  intros p r. subst p r. unfold trips. unfold_push.
  destruct sim, refr, (cnt + 1 >=? refresh_counter_limit) eqn:Hlimit; cbn;
    try done.
  intros _.
  destruct (device wi Draw_ResetHttpGifId) as [reply|] eqn:Hreset; cbn.
  - split; [|done]. intros _.
    repeat match goal with
    | |- context [match ?answer with Some _ => _ | None => _ end] =>
        destruct answer eqn:?; cbn
    | |- context [forallb ?f ?l] => destruct (forallb f l) eqn:?; cbn
    end; done.
  - split; [|done]. intros [Hs|Hanswer]; done.
Qed.

Lemma emitted_app {A} w (r : Outcome A * World) evs :
  wire (snd r) = wire w ++ evs -> emitted w r = evs.
Proof. unfold emitted. intros ->. apply drop_app_length. Qed.

Lemma resets_app evs1 evs2 : resets (evs1 ++ evs2) = (resets evs1 + resets evs2)%nat.
Proof. unfold resets. by rewrite List.filter_app, length_app. Qed.

Lemma trips_false p :
  refresh_connection_automatically p = false
  \/ counter p + 1 < refresh_counter_limit ->
  trips p = false.
Proof.
  unfold trips. intros [->|H]; [done|].
  destruct (Z.geb_spec (counter p + 1) refresh_counter_limit); [lia|].
  apply andb_false_r.
Qed.

Lemma trips_true p :
  refresh_connection_automatically p = true ->
  counter p + 1 >= refresh_counter_limit ->
  trips p = true.
Proof.
  unfold trips. intros -> H.
  destruct (Z.geb_spec (counter p + 1) refresh_counter_limit); [done | lia].
Qed.

(** ** Transmission controller: several calls of [push] *)

Lemma push_n_below device n w :
  refresh_connection_automatically (self w) = false
  \/ counter (self w) + Z.of_nat n < refresh_counter_limit ->
  let r := push_n device n w in
  exists evs,
    wire (snd r) = wire w ++ evs
    /\ resets evs = 0%nat
    /\ (fst r = Return tt -> counter (self (snd r)) = counter (self w) + Z.of_nat n)
    /\ (simulated (self w) = true -> fst r = Return tt).
Proof.
  revert w. induction n as [|n IH]; intros w Hbelow r; subst r.
  - exists []. simpl. rewrite app_nil_r. repeat split; try done. intros _. lia.
  - simpl. unfold bind.
    destruct (push_step device w)
      as (evs1 & Hwire & Hsim & Hrefresh & Hret & Hid & Hcnt & Hres & _).
    assert (Htrips : trips (self w) = false).
    { apply trips_false. destruct Hbelow; [by left | right; lia]. }
    rewrite Htrips in Hres. simpl in Hres. specialize (Hcnt Htrips).
    destruct (push device w) as [[[]|e] w1]; simpl in *.
    + destruct (IH w1) as (evs2 & Hwire2 & Hres2 & Hcnt2 & Hret2).
      { rewrite Hrefresh, Hcnt. destruct Hbelow; [by left | right; lia]. }
      exists (evs1 ++ evs2). split; [by rewrite Hwire2, Hwire, app_assoc|].
      split; [rewrite resets_app; lia|]. split.
      * intros Hr. rewrite (Hcnt2 Hr), Hcnt. lia.
      * intros Hs. apply Hret2. congruence.
    + exists evs1. repeat split; try done; intros Hs; by specialize (Hret Hs).
Qed.

Lemma push_n_at_limit device m w :
  refresh_connection_automatically (self w) = true ->
  counter (self w) + 1 >= refresh_counter_limit ->
  1 + Z.of_nat m < refresh_counter_limit ->
  let r := push_n device (S m) w in
  exists evs,
    wire (snd r) = wire w ++ evs
    /\ resets evs = (if simulated (self w) then 0 else 1)%nat
    /\ (fst r = Return tt -> counter (self (snd r)) = 1 + Z.of_nat m)
    /\ (simulated (self w) = true -> fst r = Return tt).
Proof.
  intros Hrefr Hat Hm r. subst r. simpl. unfold bind.
  destruct (push_step device w)
    as (evs1 & Hwire & Hsim & Hrefresh & Hret & Hid & _ & Hres & _).
  assert (Htrips : trips (self w) = true) by (by apply trips_true).
  unfold next_id in Hid. rewrite Htrips in Hres, Hid. simpl in Hres.
  destruct (push device w) as [[[]|e] w1]; simpl in *.
  - destruct (push_n_below device m w1) as (evs2 & Hwire2 & Hres2 & Hcnt2 & Hret2).
    { right. rewrite Hid by done. lia. }
    exists (evs1 ++ evs2). split; [by rewrite Hwire2, Hwire, app_assoc|].
    split; [rewrite resets_app, Hres, Hres2; destruct (simulated (self w)); done|].
    split.
    + intros Hr. rewrite (Hcnt2 Hr), Hid by done. done.
    + intros Hs. apply Hret2. congruence.
  - exists evs1. split; [done|].
    split; [rewrite Hres; destruct (simulated (self w)); done|].
    split; [done|]. intros Hs. by specialize (Hret Hs).
Qed.

(** ** Transmission controller: the claims *)

(** C2, amended.  Every [push] increments the counter.  When automatic
    refresh is on and the incremented counter has reached the limit, the
    reset routine runs first: towards a device it sends the counter-reset
    command before anything else, in simulated mode it sends no command;
    once it has returned the counter is 1, also when the frame is then
    refused; when the reset command fails the push raises at once, with the
    counter left as incremented and no frame sent.  A frame goes out under
    the id [next_id]: 1 for the push that reaches the limit, the incremented
    counter otherwise; with automatic refresh on, no frame goes out, to the
    device or to the simulator, under an id at or above the limit. *)
Theorem push_resets_before_frame device w :
  let p := self w in
  let r := push device w in
  let evs := emitted w r in
  wire (snd r) = wire w ++ evs
  /\ (trips p = false ->
        counter (self (snd r)) = counter p + 1 /\ resets evs = 0%nat)
  /\ (trips p = true ->
        (fst r = Return tt -> counter (self (snd r)) = 1)
        /\ (simulated p = false ->
              resets evs = 1%nat
              /\ exists rest, evs = Sent Draw_ResetHttpGifId :: rest)
        /\ (simulated p = true -> commands evs = [])
        /\ (simulated p = true \/ device (wire w) Draw_ResetHttpGifId <> None ->
              counter (self (snd r)) = 1)
        /\ (simulated p = false ->
              device (wire w) Draw_ResetHttpGifId = None ->
              fst r = Raise TransportFailure
              /\ counter (self (snd r)) = counter p + 1
              /\ evs = [Sent Draw_ResetHttpGifId]
              /\ frame_ids evs = []))
  /\ (forall id, id ∈ frame_ids evs -> id = next_id p)
  /\ (fst r = Return tt -> frame_ids evs = [next_id p])
  /\ (refresh_connection_automatically p = true ->
        forall id, id ∈ frame_ids evs -> id < refresh_counter_limit)
  /\ (simulated p = true -> fst r = Return tt).
Proof.
  intros p r evs. subst p r evs.
  destruct (push_step device w)
    as (evs & Hwire & Hsim & Hrefresh & Hret & Hid & Hcnt & Hres & Hfirst
        & Hcmd & Hids & Hframe).
  rewrite (emitted_app _ _ _ Hwire).
  split; [done|]. split.
  { intros Ht. rewrite Ht in Hres. auto. }
  split.
  { intros Ht. unfold next_id in Hid. rewrite Ht in Hid, Hres, Hfirst.
    destruct (push_at_limit device w Ht) as [Hreturned Hfailed].
    split; [done|]. split; [|split; [done|split; [done|]]].
    - intros Hs. rewrite Hs in Hres, Hfirst. auto.
    - intros Hs Hanswer.
      destruct (Hfailed Hs Hanswer) as (Hraise & Hcounter & Hwire').
      rewrite Hwire in Hwire'. apply app_inv_head in Hwire'. by subst evs. }
  split; [done|]. split; [done|]. split; [|done].
  intros Hr id Hin. rewrite (Hids id Hin). unfold next_id, trips. rewrite Hr.
  simpl. destruct (Z.geb_spec (counter (self w) + 1) refresh_counter_limit);
    unfold refresh_counter_limit in *; lia.
Qed.

(** C3, amended.  From a counter with [start + N] below the limit (or
    with automatic refresh off), [N] pushes send no reset command and, when
    they all return, leave the counter at [start + N].  With automatic
    refresh on and the counter at [limit - 1] or above, the next push sends
    exactly one reset command to a device and none in simulated mode; the
    counter resumes at 1 and the [m] pushes that follow, while below the
    limit, bring it to [1 + m].  In simulated mode every push returns. *)
Theorem pushes_count_and_reset device w :
  (forall n,
     refresh_connection_automatically (self w) = false
     \/ counter (self w) + Z.of_nat n < refresh_counter_limit ->
     let r := push_n device n w in
     resets (emitted w r) = 0%nat
     /\ (fst r = Return tt ->
         counter (self (snd r)) = counter (self w) + Z.of_nat n)
     /\ (simulated (self w) = true -> fst r = Return tt))
  /\ (forall m,
        refresh_connection_automatically (self w) = true ->
        counter (self w) + 1 >= refresh_counter_limit ->
        1 + Z.of_nat m < refresh_counter_limit ->
        let r := push_n device (S m) w in
        resets (emitted w r) = (if simulated (self w) then 0 else 1)%nat
        /\ (fst r = Return tt -> counter (self (snd r)) = 1 + Z.of_nat m)
        /\ (simulated (self w) = true -> fst r = Return tt)).
Proof.
  split.
  - intros n Hbelow r.
    destruct (push_n_below device n w Hbelow) as (evs & Hwire & ? & ? & ?).
    subst r. by rewrite (emitted_app _ _ _ Hwire).
  - intros m Hrefr Hat Hm r.
    destruct (push_n_at_limit device m w Hrefr Hat Hm) as (evs & Hwire & ? & ? & ?).
    subst r. by rewrite (emitted_app _ _ _ Hwire).
Qed.

Lemma push_resets_before_frame_witness :
  let w := device16_at 31 true in
  let r := push (obliging 0) w in
  (fst r = Return tt -> counter (self (snd r)) = 1)
  /\ (simulated (self w) = false ->
        resets (emitted w r) = 1%nat
        /\ exists rest, emitted w r = Sent Draw_ResetHttpGifId :: rest)
  /\ (simulated (self w) = true -> commands (emitted w r) = [])
  /\ (simulated (self w) = true
      \/ obliging 0 (wire w) Draw_ResetHttpGifId <> None ->
        counter (self (snd r)) = 1)
  /\ (simulated (self w) = false ->
        obliging 0 (wire w) Draw_ResetHttpGifId = None ->
        fst r = Raise TransportFailure
        /\ counter (self (snd r)) = counter (self w) + 1
        /\ emitted w r = [Sent Draw_ResetHttpGifId]
        /\ frame_ids (emitted w r) = []).
Proof.
  apply (push_resets_before_frame (obliging 0) (device16_at 31 true)).
  vm_compute. reflexivity.
Defined.

(** The reset is accepted and the frame refused: the push raises with the
    counter at 1.  The reset is refused: the push raises with the counter
    at the limit, and no frame has gone out. *)
Example push_at_limit_refused :
  let w := device16_at 31 true in
  (let r := push resets_only w in
   fst r = Raise TransportFailure
   /\ counter (self (snd r)) = 1
   /\ frame_ids (emitted w r) = [1]
   /\ resets (emitted w r) = 1%nat)
  /\ (let r := push unreachable w in
      fst r = Raise TransportFailure
      /\ counter (self (snd r)) = 32
      /\ emitted w r = [Sent Draw_ResetHttpGifId]).
Proof. vm_compute. done. Qed.

(** C2, the claim as written fails: a simulated session reaches the limit
    at its 31st push; the frame goes out under id 1, yet no counter-reset
    command is sent, nor any other command. *)
Lemma push_simulated_sends_no_reset :
  let w := snd (push_n (obliging 0) 30 simulated16) in
  let r := push (obliging 0) w in
  refresh_connection_automatically (self w) = true
  /\ counter (self w) + 1 >= refresh_counter_limit
  /\ fst r = Return tt
  /\ frame_ids (emitted w r) = [1]
  /\ commands (wire (snd r)) = []
  /\ resets (wire (snd r)) <> 1%nat.
Proof. vm_compute. repeat split; try reflexivity; discriminate. Qed.

Lemma pushes_count_and_reset_witness :
  (let r := push_n (obliging 0) 5 device16 in
   resets (emitted device16 r) = 0%nat
   /\ (fst r = Return tt -> counter (self (snd r)) = counter (self device16) + 5)
   /\ (simulated (self device16) = true -> fst r = Return tt))
  /\ (let w := device16_at 40 true in
      let r := push_n (obliging 0) 4 w in
      resets (emitted w r) = (if simulated (self w) then 0 else 1)%nat
      /\ (fst r = Return tt -> counter (self (snd r)) = 1 + 3)
      /\ (simulated (self w) = true -> fst r = Return tt)).
Proof.
  split.
  - apply (proj1 (pushes_count_and_reset (obliging 0) device16) 5%nat).
    right. vm_compute. reflexivity.
  - apply (proj2 (pushes_count_and_reset (obliging 0) (device16_at 40 true)) 3%nat).
    + reflexivity.
    + vm_compute. discriminate.
    + vm_compute. reflexivity.
Defined.

(** C3, the claim as written fails.  A session that starts below the limit,
    at 30, is at 1 after two pushes, not at 32, and has sent a reset; a
    session that starts above the limit, at 40, with automatic refresh off
    sends no reset at its next push and goes on to 41. *)
Lemma pushes_below_limit_can_reset :
  (let w := device16_at 30 true in
   let r := push_n (obliging 0) 2 w in
   counter (self w) = 30
   /\ counter (self w) < refresh_counter_limit
   /\ fst r = Return tt
   /\ counter (self (snd r)) = 1
   /\ counter (self (snd r)) <> counter (self w) + 2
   /\ resets (emitted w r) = 1%nat)
  /\ (let w := device16_at 40 false in
      let r := push (obliging 0) w in
      counter (self w) >= refresh_counter_limit
      /\ fst r = Return tt
      /\ resets (emitted w r) = 0%nat
      /\ counter (self (snd r)) = 41).
Proof. vm_compute. repeat split; try reflexivity; discriminate. Qed.

(** ** Device commands: the claims *)

(** In simulated mode the guarded operations return at once: nothing is
    sent and the session stays as it was. *)
Lemma guarded_operations_skip_simulated device w :
  simulated (self w) = true ->
  (forall text xy color identifier font width speed direction,
     send_text device text xy color identifier font width speed direction w
     = (Return tt, w))
  /\ (forall brightness, set_brightness device brightness w = (Return tt, w))
  /\ (forall channel, set_channel device channel w = (Return tt, w))
  /\ (forall clock_id, set_clock device clock_id w = (Return tt, w))
  /\ (forall face_id, set_face device face_id w = (Return tt, w))
  /\ (forall on, set_screen device on w = (Return tt, w))
  /\ (forall position, set_visualizer device position w = (Return tt, w)).
Proof.
  intros Hs.
  unfold send_text, set_brightness, set_channel, set_face, set_clock,
    set_screen, set_visualizer, bind, get. simpl. rewrite Hs.
  repeat split.
Qed.

(** C4.  [set_custom_page] has no test of [simulated]: on a simulated
    session it sends [Channel/SetCustomPageIndex] to the device channel, and
    raises when the channel fails; [set_custom_channel], which calls it,
    does the same. *)
Theorem set_custom_page_sends_when_simulated
    device index sz pc refresh buf sent cnt traffic :
  let w := mkWorld (mkPixoo sz pc true refresh buf sent cnt) traffic in
  simulated (self w) = true
  /\ wire (snd (set_custom_page device index w))
     = traffic ++ [Sent (Channel_SetCustomPageIndex index)]
  /\ wire (snd (set_custom_channel device index w))
     = traffic ++ [Sent (Channel_SetCustomPageIndex index)]
  /\ fst (set_custom_page device index w)
     = match device traffic (Channel_SetCustomPageIndex index) with
       | Some _ => Return tt
       | None => Raise TransportFailure
       end
  /\ wire (snd (set_custom_page (obliging 0) 2 simulated16))
     = [Sent (Channel_SetCustomPageIndex 2)].
Proof.
  cbv zeta. split; [done|].
  assert (Hhere : wire (snd (set_custom_page (obliging 0) 2 simulated16))
                  = [Sent (Channel_SetCustomPageIndex 2)])
    by (vm_compute; reflexivity).
  revert Hhere.
  unfold set_custom_channel, set_channel, set_custom_page, send_command,
    bind, get, ret. cbn [self wire simulated fst snd].
  destruct (device traffic (Channel_SetCustomPageIndex index));
    cbn [self wire simulated fst snd]; auto.
Qed.

(** ** The constructor *)

Lemma load_counter_consistent device w :
  consistent (self w) -> consistent (self (snd (load_counter device w))).
Proof.
  intros [? ? ? ?]. unfold load_counter, bind, get, send_command, modify. simpl.
  destruct (simulated (self w)); [by split|].
  destruct (device _ _); by split.
Qed.

Lemma reset_counter_self device w : self (snd (reset_counter device w)) = self w.
Proof.
  unfold reset_counter, bind, get, send_command, ret. simpl.
  destruct (simulated (self w)); [done|]. by destruct (device _ _).
Qed.

Lemma init_consistent device background s refresh sim w :
  fst (init device background s refresh sim w) = Return tt ->
  consistent (self (snd (init device background s refresh sim w))).
Proof.
  destruct (init device background s refresh sim w) as [o w'] eqn:E.
  simpl. intros ->. unfold init in E.
  case_bool_decide as Hs; [|done]. cbn [negb] in E.
  unfold bind at 1 in E. unfold modify at 1 in E. cbv beta iota in E.
  set (w0 := mkWorld _ _) in E.
  assert (Hside : 0 < size (self w0)).
  { simpl. set_unfold. lia. }
  pose proof (fill_consistent background w0 Hside eq_refl) as Hfill.
  unfold bind at 1 in E.
  destruct (fill background w0) as [[[]|e] w1]; [|done]. simpl in Hfill.
  apply (load_counter_consistent device) in Hfill.
  unfold bind at 1 in E.
  destruct (load_counter device w1) as [[[]|e] w2]; [|done]. simpl in Hfill.
  unfold bind, get, ret in E. cbv beta iota in E.
  destruct (_ && _) in E.
  - replace w' with (snd (reset_counter device w2)) by (by rewrite E).
    by rewrite reset_counter_self.
  - by injection E as <-.
Qed.

(** ** Further facts about the buffer *)

Lemma buffer_ext (b1 b2 : list Z) n :
  Z.of_nat (length b1) = 3 * n -> Z.of_nat (length b2) = 3 * n ->
  (forall i, 0 <= i < n -> pixel_at_index b1 i = pixel_at_index b2 i) ->
  b1 = b2.
Proof.
  intros H1 H2 Hpix. apply list_eq. intros j.
  destruct (decide (j < length b1)%nat) as [Hj|Hj].
  - set (i := Z.of_nat j / 3).
    pose proof (Z.div_mod (Z.of_nat j) 3 ltac:(lia)) as Hdm.
    pose proof (Z.mod_pos_bound (Z.of_nat j) 3 ltac:(lia)) as Hm.
    fold i in Hdm.
    assert (Hi : 0 <= i < n) by lia.
    specialize (Hpix i Hi). unfold pixel_at_index in Hpix.
    destruct (lookup_lt_is_Some_2 b1 (Z.to_nat (3 * i)) ltac:(lia)) as [r1 Hr1].
    destruct (lookup_lt_is_Some_2 b1 (Z.to_nat (3 * i + 1)) ltac:(lia)) as [g1 Hg1].
    destruct (lookup_lt_is_Some_2 b1 (Z.to_nat (3 * i + 2)) ltac:(lia)) as [c1 Hc1].
    destruct (lookup_lt_is_Some_2 b2 (Z.to_nat (3 * i)) ltac:(lia)) as [r2 Hr2].
    destruct (lookup_lt_is_Some_2 b2 (Z.to_nat (3 * i + 1)) ltac:(lia)) as [g2 Hg2].
    destruct (lookup_lt_is_Some_2 b2 (Z.to_nat (3 * i + 2)) ltac:(lia)) as [c2 Hc2].
    rewrite Hr1, Hg1, Hc1, Hr2, Hg2, Hc2 in Hpix.
    injection Hpix as -> -> ->.
    assert (j = Z.to_nat (3 * i) \/ j = Z.to_nat (3 * i + 1)
            \/ j = Z.to_nat (3 * i + 2)) as [Hj' | [Hj' | Hj'] ] by lia;
      rewrite Hj'; congruence.
  - rewrite !lookup_ge_None_2; [done | lia | lia].
Qed.

Lemma pixels_determine p (b1 b2 : list Z) :
  consistent (with_buffer b1 p) -> consistent (with_buffer b2 p) ->
  (forall xy, on_screen p xy ->
     pixel_at_index b1 (fst xy + snd xy * size p)
     = pixel_at_index b2 (fst xy + snd xy * size p)) ->
  b1 = b2.
Proof.
  intros [Hs Hc Hl1 _] [_ _ Hl2 _] Hpix. simpl in *.
  apply (buffer_ext b1 b2 (pixel_count p)); [done | done |].
  intros i Hi. rewrite Hc in Hi.
  pose proof (Z.div_mod i (size p) ltac:(lia)) as Hdm.
  pose proof (Z.mod_pos_bound i (size p) ltac:(lia)) as Hm.
  assert (Hq : 0 <= i / size p < size p).
  { split; [apply Z.div_pos; lia | apply Z.div_lt_upper_bound; lia]. }
  specialize (Hpix (i mod size p, i / size p)). simpl in Hpix.
  replace (i mod size p + i / size p * size p) with i in Hpix by lia.
  apply Hpix. split; simpl; lia.
Qed.

Lemma consistent_bytes_check p :
  consistent p -> forallb (fun b => (0 <=? b) && (b <? 256)) (buffer p) = true.
Proof.
  intros [_ _ _ Hb]. apply forallb_forall. intros v Hv.
  rewrite Forall_forall in Hb. apply list_elem_of_In, Hb in Hv. lia.
Qed.

(** One call of [draw_pixel], on the screen or off it. *)
Lemma draw_pixel_run w xy rgb :
  consistent (self w) ->
  exists b,
    draw_pixel xy rgb w = (Return tt, mkWorld (with_buffer b (self w)) (wire w))
    /\ consistent (with_buffer b (self w))
    /\ forall xy', on_screen (self w) xy' ->
         pixel_at_index b (fst xy' + snd xy' * size (self w))
         = if decide (xy' = xy) then Some (clamp_color rgb)
           else pixel_at (self w) xy'.
Proof.
  intros Hc. destruct (on_screen_or_outside (self w) xy) as [Hon|Hout].
  - rewrite draw_pixel_inside by done. eexists. split; [done|].
    split; [by apply consistent_stored|].
    intros xy' Hxy'. destruct Hc as [? Hcount Hlen ?].
    pose proof (index_inside _ _ Hcount Hon).
    pose proof (index_inside _ _ Hcount Hxy').
    destruct (decide (xy' = xy)) as [->|Hne].
    + apply pixel_at_index_stored; lia.
    + apply pixel_at_index_stored_ne; [lia | lia |].
      intros Heq. apply Hne. symmetry. by eapply index_injective.
  - rewrite draw_pixel_outside by done. exists (buffer (self w)).
    rewrite with_buffer_self. split; [done|].
    split; [by destruct w as [[] ?]|].
    intros xy' Hxy'. rewrite decide_False; [done|].
    intros ->. destruct Hxy' as [[] []]. lia.
Qed.

(** Two calls of [draw_pixel] in a row: the later one wins. *)
Lemma draw_pixel_twice w xy1 c1 xy2 c2 :
  consistent (self w) ->
  exists b,
    (draw_pixel xy1 c1 >> draw_pixel xy2 c2) w
    = (Return tt, mkWorld (with_buffer b (self w)) (wire w))
    /\ consistent (with_buffer b (self w))
    /\ forall xy', on_screen (self w) xy' ->
         pixel_at_index b (fst xy' + snd xy' * size (self w))
         = if decide (xy' = xy2) then Some (clamp_color c2)
           else if decide (xy' = xy1) then Some (clamp_color c1)
           else pixel_at (self w) xy'.
Proof.
  intros Hc. unfold bind.
  destruct (draw_pixel_run w xy1 c1 Hc) as (b1 & -> & Hc1 & Hp1).
  destruct (draw_pixel_run (mkWorld (with_buffer b1 (self w)) (wire w)) xy2 c2 Hc1)
    as (b2 & -> & Hc2 & Hp2).
  simpl in *. exists b2. split; [done|]. split; [done|].
  intros xy' Hxy'. rewrite (Hp2 xy' Hxy').
  destruct (decide (xy' = xy2)); [done|]. unfold pixel_at. simpl. by apply Hp1.
Qed.

(** The generalisation of [draw_pixels_run] to a colour that depends on the
    point. *)
Lemma draw_painted_run ps (colour : Location -> Color) w :
  consistent (self w) ->
  exists b,
    for_ ps (fun px => draw_pixel px (colour px)) w
    = (Return tt, mkWorld (with_buffer b (self w)) (wire w))
    /\ consistent (with_buffer b (self w))
    /\ forall xy, on_screen (self w) xy ->
         pixel_at_index b (fst xy + snd xy * size (self w))
         = if decide (xy ∈ ps) then Some (clamp_color (colour xy))
           else pixel_at (self w) xy.
Proof.
  revert w. induction ps as [|px ps IH]; intros w Hc.
  - exists (buffer (self w)). rewrite with_buffer_self.
    split; [done|]. split; [by destruct w as [[] ?]|]. intros xy _.
    case_decide as Hin; [by apply not_elem_of_nil in Hin | done].
  - simpl. unfold bind.
    destruct (draw_pixel_run w px (colour px) Hc) as (b1 & -> & Hc1 & Hp1).
    destruct (IH (mkWorld (with_buffer b1 (self w)) (wire w)) Hc1)
      as (b & Hrun & Hcb & Hpix).
    simpl in Hrun, Hcb, Hpix.
    exists b. split; [by rewrite Hrun|]. split; [done|].
    intros xy Hxy. rewrite (Hpix xy Hxy).
    destruct (decide (xy ∈ ps)) as [Hin|Hin].
    + rewrite decide_True by (by right). done.
    + unfold pixel_at. simpl. rewrite (Hp1 xy Hxy).
      destruct (decide (xy = px)) as [->|Hne].
      * rewrite decide_True by left. done.
      * rewrite decide_False by (intros [?|?]%elem_of_cons; done). done.
Qed.

(** Two lists with the same points draw the same thing. *)
Lemma draw_pixels_ext ps1 ps2 rgb w :
  consistent (self w) ->
  (forall xy, xy ∈ ps1 <-> xy ∈ ps2) ->
  for_ ps1 (fun px => draw_pixel px rgb) w
  = for_ ps2 (fun px => draw_pixel px rgb) w.
Proof.
  intros Hc Hsame.
  destruct (draw_pixels_run ps1 rgb w Hc) as (b1 & -> & Hc1 & Hp1).
  destruct (draw_pixels_run ps2 rgb w Hc) as (b2 & -> & Hc2 & Hp2).
  assert (b1 = b2) as ->; [|done].
  apply (pixels_determine (self w)); [done | done |].
  intros xy Hxy. rewrite (Hp1 xy Hxy), (Hp2 xy Hxy).
  destruct (decide (xy ∈ ps1)) as [H1|H1], (decide (xy ∈ ps2)) as [H2|H2];
    try done; apply Hsame in H1 || apply Hsame in H2; done.
Qed.

Lemma pixel_at_index_triples n (r g b : Z) i :
  0 <= i < Z.of_nat n ->
  pixel_at_index (mjoin (replicate n [r; g; b])) i = Some (r, g, b).
Proof.
  revert i. induction n as [|n IH]; intros i Hi; [lia|].
  unfold pixel_at_index. simpl.
  destruct (decide (i = 0)) as [->|Hne]; [done|].
  replace (Z.to_nat (3 * i)) with (3 + Z.to_nat (3 * (i - 1)))%nat by lia.
  replace (Z.to_nat (3 * i + 1)) with (3 + Z.to_nat (3 * (i - 1) + 1))%nat by lia.
  replace (Z.to_nat (3 * i + 2)) with (3 + Z.to_nat (3 * (i - 1) + 2))%nat by lia.
  simpl. apply (IH (i - 1)). lia.
Qed.

(** ** Drawing: further properties *)

Lemma float_of_int_zero : float_of_int 0 = Return (S754_zero false).
Proof. reflexivity. Qed.

(** The first step of the loop converts the horizontal distance to a float;
    when that fails the loop ends there. *)
Lemma line_points_overflow start_xy stop_xy e :
  float_of_int (fst stop_xy - fst start_xy) = Raise e ->
  line_points start_xy stop_xy = Raise e.
Proof.
  intros Hconv. unfold line_points.
  set (n := minimum_amount_of_steps start_xy stop_xy).
  assert (Hn : 0 < n).
  { assert (fst stop_xy - fst start_xy <> 0).
    { intros Hz. rewrite Hz, float_of_int_zero in Hconv. done. }
    subst n. unfold minimum_amount_of_steps. lia. }
  unfold range. rewrite Z.sub_0_r, seqZ_cons by done.
  cbn [fold_outcome]. unfold line_point.
  destruct (Z.eqb_spec n 0); [lia|].
  unfold int_true_div. destruct (Z.eqb_spec n 0); [lia|].
  cbn [Z.eqb]. unfold lerp_location, lerp. cbn [fst snd py_sub py_mul as_float].
  by rewrite Hconv.
Qed.

(** X1.  On a well-formed session [draw_pixel_at_index], [draw_pixel],
    [draw_filled_rectangle] and [fill] return without an exception, send
    nothing, and change at most the buffer, which stays well formed:
    [3 * side * side] bytes, each in [[0, 255]].  [draw_line] does the same
    whenever its first loop builds the set of points; when that loop raises,
    as it does with [OverflowError] for a horizontal distance that does not
    fit a float, [draw_line] raises the same exception and the session is
    as it was. *)
Theorem drawing_only_redraws w rgb :
  consistent (self w) ->
  (forall i, only_redraws w (draw_pixel_at_index i rgb w))
  /\ (forall xy, only_redraws w (draw_pixel xy rgb w))
  /\ (forall tl br, only_redraws w (draw_filled_rectangle tl br rgb w))
  /\ (forall a b,
        match line_points a b with
        | Return _ => only_redraws w (draw_line a b rgb w)
        | Raise e => draw_line a b rgb w = (Raise e, w)
        end)
  /\ (forall a b,
        float_of_int (fst b - fst a) = Raise OverflowError ->
        draw_line a b rgb w = (Raise OverflowError, w))
  /\ only_redraws w (fill rgb w).
Proof.
  intros Hc. unfold only_redraws.
  split; [|split; [|split; [|split; [|split]]]].
  - intros i. destruct (decide (0 <= i < pixel_count (self w))) as [Hi|Hi].
    + rewrite draw_pixel_at_index_inside by (done || by destruct Hc).
      split; [done|]. eexists. split; [done|]. by apply consistent_stored.
    + assert (Hnoop : draw_pixel_at_index i rgb w = (Return tt, w)).
      { unfold draw_pixel_at_index, bind, get. simpl.
        destruct (Z.ltb_spec i 0), (Z.geb_spec i (pixel_count (self w)));
          simpl; try done; lia. }
      rewrite Hnoop. split; [done|].
      exists (buffer (self w)). rewrite with_buffer_self.
      split; [done|]. by destruct w as [[] ?].
  - intros xy. destruct (draw_pixel_run w xy rgb Hc) as (b & -> & ? & _). eauto.
  - intros tl br. rewrite draw_filled_rectangle_points.
    destruct (draw_pixels_run (rect_points tl br) rgb w Hc) as (? & -> & ? & _).
    eauto.
  - intros a b. destruct (line_points a b) as [line|e] eqn:Hline.
    + destruct (draw_line_run w a b rgb line Hline Hc) as (? & -> & ? & _). eauto.
    + by apply draw_line_raises.
  - intros a b Hconv. by apply draw_line_raises, line_points_overflow.
  - pose proof (fill_consistent rgb w) as Hf. rewrite fill_run in *.
    split; [done|]. eexists. split; [done|]. apply Hf; by destruct Hc.
Qed.

Lemma drawing_only_redraws_witness :
  only_redraws device16 (draw_line (0, 0) (5, 3) (300, 2, 1) device16)
  /\ draw_line (0, 0) (10 ^ 400, 0) (300, 2, 1) device16
     = (Raise OverflowError, device16)
  /\ only_redraws device16 (draw_pixel_at_index 999 (300, 2, 1) device16).
Proof.
  destruct (drawing_only_redraws device16 (300, 2, 1))
    as (Hi & _ & _ & Hl & Hover & _).
  - apply consistentb_true. vm_compute. reflexivity.
  - split; [exact (Hl (0, 0) (5, 3))|]. split; [|apply Hi].
    apply Hover. vm_compute. reflexivity.
Defined.

(** X2.  Drawing the same pixel twice leaves what the second call alone
    would leave: the later colour wins. *)
Theorem draw_pixel_later_wins w xy c1 c2 :
  consistent (self w) ->
  (draw_pixel xy c1 >> draw_pixel xy c2) w = draw_pixel xy c2 w.
Proof.
  intros Hc.
  destruct (draw_pixel_twice w xy c1 xy c2 Hc) as (b & -> & Hcb & Hp).
  destruct (draw_pixel_run w xy c2 Hc) as (b' & -> & Hcb' & Hp').
  assert (b = b') as ->; [|done].
  apply (pixels_determine (self w)); [done | done |].
  intros xy' Hxy'. rewrite (Hp xy' Hxy'), (Hp' xy' Hxy').
  by destruct (decide (xy' = xy)).
Qed.

Lemma draw_pixel_later_wins_witness :
  (draw_pixel (3, 4) (1, 2, 3) >> draw_pixel (3, 4) (7, 8, 9)) device16
  = draw_pixel (3, 4) (7, 8, 9) device16.
Proof.
  apply (draw_pixel_later_wins device16 (3, 4) (1, 2, 3) (7, 8, 9)).
  apply consistentb_true. vm_compute. reflexivity.
Defined.

(** X3.  Calls of [draw_pixel] on two different points commute, whatever
    the colours and whether the points are on the screen or not. *)
Theorem draw_pixel_commutes w xy1 c1 xy2 c2 :
  consistent (self w) -> xy1 <> xy2 ->
  (draw_pixel xy1 c1 >> draw_pixel xy2 c2) w
  = (draw_pixel xy2 c2 >> draw_pixel xy1 c1) w.
Proof.
  intros Hc Hne.
  destruct (draw_pixel_twice w xy1 c1 xy2 c2 Hc) as (b & -> & Hcb & Hp).
  destruct (draw_pixel_twice w xy2 c2 xy1 c1 Hc) as (b' & -> & Hcb' & Hp').
  assert (b = b') as ->; [|done].
  apply (pixels_determine (self w)); [done | done |].
  intros xy' Hxy'. rewrite (Hp xy' Hxy'), (Hp' xy' Hxy').
  destruct (decide (xy' = xy2)) as [E2|], (decide (xy' = xy1)) as [E1|];
    try done. congruence.
Qed.

Lemma draw_pixel_commutes_witness :
  (draw_pixel (3, 4) (1, 2, 3) >> draw_pixel (20, 4) (7, 8, 9)) device16
  = (draw_pixel (20, 4) (7, 8, 9) >> draw_pixel (3, 4) (1, 2, 3)) device16.
Proof.
  apply (draw_pixel_commutes device16 (3, 4) (1, 2, 3) (20, 4) (7, 8, 9)).
  - apply consistentb_true. vm_compute. reflexivity.
  - discriminate.
Defined.

(** X4.  A filled rectangle over the whole screen, from (0, 0) to
    (side - 1, side - 1), leaves the same session as [fill] with the same
    colour. *)
Theorem full_screen_rectangle_is_fill w rgb :
  consistent (self w) ->
  draw_filled_rectangle (0, 0) (size (self w) - 1, size (self w) - 1) rgb w
  = fill rgb w.
Proof.
  intros Hc. rewrite draw_filled_rectangle_points.
  destruct (draw_pixels_run
              (rect_points (0, 0) (size (self w) - 1, size (self w) - 1)) rgb w Hc)
    as (b & -> & Hcb & Hp).
  pose proof (fill_consistent rgb w) as Hf. rewrite fill_run in *. simpl in Hf.
  f_equal. f_equal. f_equal.
  apply (pixels_determine (self w)); [done | apply Hf; by destruct Hc |].
  intros xy Hxy. rewrite (Hp xy Hxy).
  rewrite decide_True.
  2: { apply elem_of_rect_points. destruct Hxy as [[] []].
       unfold in_rectangle. simpl. lia. }
  destruct Hc as [? Hcount ? ?].
  pose proof (index_inside _ _ Hcount Hxy).
  destruct (clamp_color rgb) as [[r g] c].
  symmetry. apply pixel_at_index_triples. lia.
Qed.

Lemma full_screen_rectangle_is_fill_witness :
  draw_filled_rectangle (0, 0)
    (size (self device16) - 1, size (self device16) - 1) (9, 300, -2) device16
  = fill (9, 300, -2) device16.
Proof.
  apply (full_screen_rectangle_is_fill device16 (9, 300, -2)).
  apply consistentb_true. vm_compute. reflexivity.
Defined.

(** X5.  The session left by [draw_line] does not depend on the order in
    which the set of points is gone through: when the first loop has built
    the set, drawing any list that holds exactly the points of the set, each
    any number of times, gives the same result. *)
Theorem draw_line_any_order w start_xy stop_xy rgb line ps :
  consistent (self w) ->
  line_points start_xy stop_xy = Return line ->
  (forall xy, xy ∈ ps <-> xy ∈ line) ->
  for_ ps (fun pixel => draw_pixel pixel rgb) w
  = draw_line start_xy stop_xy rgb w.
Proof.
  intros Hc Hline Hsame. unfold draw_line, bind, lift. rewrite Hline.
  apply draw_pixels_ext; [done|].
  intros xy. by rewrite elem_of_elements.
Qed.

Lemma draw_line_any_order_witness :
  for_ [(1, 0); (0, 0); (2, 0); (1, 0)] (fun pixel => draw_pixel pixel (5, 6, 7))
       device16
  = draw_line (0, 0) (3, 0) (5, 6, 7) device16.
Proof.
  apply (draw_line_any_order device16 (0, 0) (3, 0) (5, 6, 7)
           {[ (0, 0); (1, 0); (2, 0) ]}).
  - apply consistentb_true. vm_compute. reflexivity.
  - vm_compute. reflexivity.
  - intros xy. rewrite !elem_of_cons, elem_of_nil, !elem_of_union,
      !elem_of_singleton. tauto.
Defined.

(** ** The constructor and the counter: further properties *)

Lemma init_run device background s refresh sim w :
  s ∈ [16; 32; 64] ->
  init device background s refresh sim w
  = let p0 := mkPixoo s (s * s) sim refresh (filled s background)
                      (buffers_send (self w)) (counter (self w)) in
    let asked := wire w ++ [Sent Draw_GetHttpGifId] in
    if sim then (Return tt, mkWorld (with_counter 1 p0) (wire w))
    else
      match device (wire w) Draw_GetHttpGifId with
      | None => (Raise TransportFailure, mkWorld p0 asked)
      | Some c =>
          if refresh && (c >? refresh_counter_limit) then
            (match device asked Draw_ResetHttpGifId with
             | Some _ => Return tt
             | None => Raise TransportFailure
             end,
             mkWorld (with_counter c p0) (asked ++ [Sent Draw_ResetHttpGifId]))
          else (Return tt, mkWorld (with_counter c p0) asked)
      end.
Proof.
  intros Hs. unfold init. rewrite bool_decide_eq_true_2 by done. cbn [negb].
  unfold bind at 1. unfold modify at 1. cbv beta iota.
  unfold bind at 1. rewrite fill_run. cbv beta iota.
  unfold load_counter, reset_counter, send_command, bind, get, modify, ret, filled.
  destruct sim; cbn.
  { by destruct refresh. }
  destruct (device (wire w) Draw_GetHttpGifId) as [c|]; cbn; [|done].
  destruct (refresh && (c >? refresh_counter_limit)); cbn; [|done].
  by destruct (device _ Draw_ResetHttpGifId).
Qed.

Lemma filled_consistent s rgb sim refresh sent cnt :
  0 < s -> consistent (mkPixoo s (s * s) sim refresh (filled s rgb) sent cnt).
Proof.
  intros Hs. unfold filled. destruct (clamp_color rgb) as [[r g] b] eqn:E.
  split; simpl; try done.
  - rewrite length_join_triples. nia.
  - apply Forall_join, Forall_replicate.
    destruct rgb as [[r' g'] b']. injection E as <- <- <-.
    repeat constructor; apply clamp_bounds.
Qed.

(** X6.  [__init__] refuses, with an [AssertionError] and before anything
    else happens, a size other than 16, 32 or 64.  For a valid size it
    leaves, whether or not the device answers, a well-formed session of that
    size whose buffer is [size * size] copies of the clamped background. *)
Theorem init_checks_size_and_fills device background s refresh sim w :
  (s ∉ [16; 32; 64] ->
   init device background s refresh sim w = (Raise AssertionError, w))
  /\ (s ∈ [16; 32; 64] ->
      let p := self (snd (init device background s refresh sim w)) in
      size p = s /\ pixel_count p = s * s
      /\ simulated p = sim /\ refresh_connection_automatically p = refresh
      /\ buffers_send p = buffers_send (self w)
      /\ buffer p = filled s background
      /\ consistent p).
Proof.
  split.
  - intros Hs. unfold init. by rewrite bool_decide_eq_false_2.
  - intros Hs. rewrite (init_run _ _ _ _ _ _ Hs).
    assert (0 < s) by (set_unfold; lia).
    pose proof (filled_consistent s background sim refresh
                  (buffers_send (self w))) as Hf.
    cbv zeta. destruct sim; [|destruct (device _ _) as [c|];
      [destruct (refresh && _)|]]; simpl; repeat split; try done;
      by apply Hf.
Qed.

Lemma init_checks_size_and_fills_witness :
  init (obliging 0) black 48 true false device16 = (Raise AssertionError, device16)
  /\ (let p := self (snd (init (obliging 0) (9, 300, -1) 32 true false device16)) in
      size p = 32 /\ pixel_count p = 32 * 32
      /\ simulated p = false /\ refresh_connection_automatically p = true
      /\ buffers_send p = buffers_send (self device16)
      /\ buffer p = filled 32 (9, 300, -1)
      /\ consistent p).
Proof.
  split.
  - apply (proj1 (init_checks_size_and_fills (obliging 0) black 48 true false
                    device16)).
    rewrite !elem_of_cons, elem_of_nil. intuition discriminate.
  - apply (proj2 (init_checks_size_and_fills (obliging 0) (9, 300, -1) 32 true
                    false device16)).
    right. left.
Defined.

(** X7.  For a valid size, [__init__] in simulated mode sends nothing and
    starts the counter at 1.  Towards a device it first asks for the
    counter; when the device answers [c] the local counter is [c], and a
    reset command follows exactly when automatic refresh is on and [c] is
    strictly above the limit (not at the limit); the local counter stays at
    [c] even then.  When the device does not answer, the call raises. *)
Theorem init_loads_counter device background s refresh sim w :
  s ∈ [16; 32; 64] ->
  let r := init device background s refresh sim w in
  (sim = true ->
   fst r = Return tt /\ emitted w r = [] /\ counter (self (snd r)) = 1)
  /\ (sim = false ->
      match device (wire w) Draw_GetHttpGifId with
      | None =>
          fst r = Raise TransportFailure
          /\ emitted w r = [Sent Draw_GetHttpGifId]
      | Some c =>
          counter (self (snd r)) = c
          /\ emitted w r
             = Sent Draw_GetHttpGifId
               :: (if refresh && (c >? refresh_counter_limit)
                   then [Sent Draw_ResetHttpGifId] else [])
          /\ (refresh && (c >? refresh_counter_limit) = false ->
              fst r = Return tt)
      end).
Proof.
  intros Hs r. subst r. rewrite (init_run _ _ _ _ _ _ Hs). cbv zeta.
  split; intros ->.
  - simpl. repeat split. apply emitted_app. simpl. by rewrite app_nil_r.
  - destruct (device (wire w) Draw_GetHttpGifId) as [c|].
    + destruct (refresh && (c >? refresh_counter_limit)); simpl;
        repeat split; try done; apply emitted_app; simpl;
        by rewrite <- ?app_assoc.
    + simpl. split; [done|]. by apply emitted_app.
Qed.

Lemma init_loads_counter_witness :
  let w := mkWorld class_attributes [] in
  let r := init (obliging 32) black 16 true false w in
  (false = true ->
   fst r = Return tt /\ emitted w r = [] /\ counter (self (snd r)) = 1)
  /\ (false = false ->
      match obliging 32 (wire w) Draw_GetHttpGifId with
      | None =>
          fst r = Raise TransportFailure
          /\ emitted w r = [Sent Draw_GetHttpGifId]
      | Some c =>
          counter (self (snd r)) = c
          /\ emitted w r
             = Sent Draw_GetHttpGifId
               :: (if true && (c >? refresh_counter_limit)
                   then [Sent Draw_ResetHttpGifId] else [])
          /\ (true && (c >? refresh_counter_limit) = false ->
              fst r = Return tt)
      end).
Proof.
  apply (init_loads_counter (obliging 32) black 16 true false
           (mkWorld class_attributes [])).
  left.
Defined.

(** ** Pushing: further properties *)

Lemma push_keeps device w :
  let p := self w in
  let p' := self (snd (push device w)) in
  buffer p' = buffer p /\ size p' = size p /\ pixel_count p' = pixel_count p.
Proof.
  destruct w as [[sz pc sim refr buf bs cnt] wi]. unfold_push.
  destruct sim, refr, (cnt + 1 >=? refresh_counter_limit); cbn.
  all: repeat match goal with
       | |- context [match ?answer with Some _ => _ | None => _ end] =>
           destruct answer eqn:?; cbn
       | |- context [forallb ?f ?l] => destruct (forallb f l) eqn:?; cbn
       end.
  all: done.
Qed.

(** X8.  [push] on a well-formed session never fails on the encoding of the
    buffer and never changes the buffer.  In simulated mode it hands the
    whole buffer to the simulator under the id [next_id].  Towards a device
    it returns or raises a transport failure; it sends, after the reset
    command when one is due, one frame command with one picture, the side
    as width, offset 0, the id [next_id], a delay of 1000 and the whole
    buffer, unless the reset itself failed; [buffers_send] grows by one
    exactly when the call returns. *)
Theorem push_sends_whole_buffer device w :
  consistent (self w) ->
  let p := self w in
  let r := push device w in
  let frame :=
    Sent (Draw_SendHttpGif 1 (size p) 0 (next_id p) 1000 (buffer p)) in
  let reset := if trips p then [Sent Draw_ResetHttpGifId] else [] in
  buffer (self (snd r)) = buffer p
  /\ buffers_send (self (snd r))
     = buffers_send p + (if returned (fst r) then 1 else 0)
  /\ (simulated p = true ->
      fst r = Return tt /\ emitted w r = [Displayed (buffer p) (next_id p)])
  /\ (simulated p = false ->
      (fst r = Return tt \/ fst r = Raise TransportFailure)
      /\ (emitted w r = reset ++ [frame]
          \/ (trips p = true /\ fst r = Raise TransportFailure
              /\ emitted w r = [Sent Draw_ResetHttpGifId]))
      /\ (fst r = Return tt -> emitted w r = reset ++ [frame])).
Proof.
  intros Hc. apply consistent_bytes_check in Hc.
  destruct w as [[sz pc sim refr buf bs cnt] wi]. simpl in Hc.
  cbv zeta. unfold emitted, next_id, trips. unfold_push.
  destruct sim, refr, (cnt + 1 >=? refresh_counter_limit); cbn.
  all: repeat first
       [ rewrite Hc; cbn
       | match goal with
         | |- context [match ?answer with Some _ => _ | None => _ end] =>
             destruct answer eqn:?; cbn
         end ].
  all: rewrite <- ?app_assoc, ?drop_app_length; cbn.
  all: repeat split; try done; try lia; auto.
Qed.

Lemma push_sends_whole_buffer_witness :
  let w := device16_at 31 true in
  let p := self w in
  let r := push (obliging 0) w in
  let frame :=
    Sent (Draw_SendHttpGif 1 (size p) 0 (next_id p) 1000 (buffer p)) in
  let reset := if trips p then [Sent Draw_ResetHttpGifId] else [] in
  buffer (self (snd r)) = buffer p
  /\ buffers_send (self (snd r))
     = buffers_send p + (if returned (fst r) then 1 else 0)
  /\ (simulated p = true ->
      fst r = Return tt /\ emitted w r = [Displayed (buffer p) (next_id p)])
  /\ (simulated p = false ->
      (fst r = Return tt \/ fst r = Raise TransportFailure)
      /\ (emitted w r = reset ++ [frame]
          \/ (trips p = true /\ fst r = Raise TransportFailure
              /\ emitted w r = [Sent Draw_ResetHttpGifId]))
      /\ (fst r = Return tt -> emitted w r = reset ++ [frame])).
Proof.
  apply (push_sends_whole_buffer (obliging 0) (device16_at 31 true)).
  apply consistentb_true. vm_compute. reflexivity.
Defined.

Lemma frame_ids_app evs1 evs2 :
  frame_ids (evs1 ++ evs2) = frame_ids evs1 ++ frame_ids evs2.
Proof.
  induction evs1 as [|e evs1 IH]; [done|].
  destruct e as [[]|]; simpl; by rewrite ?IH.
Qed.

Lemma commands_app evs1 evs2 :
  commands (evs1 ++ evs2) = commands evs1 ++ commands evs2.
Proof. unfold commands. apply List.filter_app. Qed.

Lemma push_n_run device n w :
  let r := push_n device n w in
  exists evs,
    wire (snd r) = wire w ++ evs
    /\ buffer (self (snd r)) = buffer (self w)
    /\ size (self (snd r)) = size (self w)
    /\ pixel_count (self (snd r)) = pixel_count (self w)
    /\ (fst r = Return tt -> length (frame_ids evs) = n)
    /\ (refresh_connection_automatically (self w) = true ->
        0 <= counter (self w) ->
        Forall (fun id => 1 <= id < refresh_counter_limit) (frame_ids evs))
    /\ (simulated (self w) = true -> fst r = Return tt /\ commands evs = []).
Proof.
  revert w. induction n as [|n IH]; intros w r; subst r.
  - exists []. simpl. rewrite app_nil_r. repeat split; done.
  - simpl. unfold bind.
    destruct (push_step device w)
      as (evs1 & Hwire & Hsim & Hrefresh & Hret & Hid & _ & _ & _ & Hcmd
          & Hids & Hframe).
    destruct (push_keeps device w) as (Hb & Hs & Hp).
    assert (Hbound : refresh_connection_automatically (self w) = true ->
                     0 <= counter (self w) ->
                     1 <= next_id (self w) < refresh_counter_limit).
    { intros Hr Hpos. unfold next_id, trips. rewrite Hr. simpl.
      destruct (Z.geb_spec (counter (self w) + 1) refresh_counter_limit);
        unfold refresh_counter_limit in *; lia. }
    assert (Hall : refresh_connection_automatically (self w) = true ->
                   0 <= counter (self w) ->
                   Forall (fun id => 1 <= id < refresh_counter_limit)
                          (frame_ids evs1)).
    { intros Hr Hpos. apply Forall_forall. intros id Hin.
      rewrite (Hids id Hin). by apply Hbound. }
    destruct (push device w) as [[[]|e] w1]; simpl in *.
    + destruct (IH w1) as (evs2 & Hwire2 & Hb2 & Hs2 & Hp2 & Hlen2 & Hall2 & Hsim2).
      exists (evs1 ++ evs2). split; [by rewrite Hwire2, Hwire, app_assoc|].
      split; [congruence|]. split; [congruence|]. split; [congruence|].
      split.
      { intros Hr. rewrite frame_ids_app, length_app, (Hlen2 Hr), Hframe; done. }
      split.
      { intros Hr Hpos. rewrite frame_ids_app. apply Forall_app. split; [auto|].
        apply Hall2; [congruence|]. rewrite Hid by done.
        specialize (Hbound Hr Hpos). lia. }
      intros Hsm. destruct Hsim2 as [? ?]; [congruence|].
      split; [done|]. rewrite commands_app, Hcmd by done. done.
    + exists evs1. repeat split; try done; auto.
      all: intros Hsm; by specialize (Hret Hsm).
Qed.

Lemma consistent_same p p' :
  buffer p' = buffer p -> size p' = size p -> pixel_count p' = pixel_count p ->
  consistent p -> consistent p'.
Proof. intros Hb Hs Hp [? ? ? ?]. split; congruence. Qed.

(** X9.  Any number of pushes, whether they return or raise, leaves the
    buffer, the side and the pixel count as they were, so a well-formed
    session stays well formed; when all [n] pushes return, exactly [n]
    frames have gone out. *)
Theorem push_n_keeps_picture device n w :
  let r := push_n device n w in
  buffer (self (snd r)) = buffer (self w)
  /\ size (self (snd r)) = size (self w)
  /\ pixel_count (self (snd r)) = pixel_count (self w)
  /\ (consistent (self w) -> consistent (self (snd r)))
  /\ (fst r = Return tt -> length (frame_ids (emitted w r)) = n).
Proof.
  intros r. subst r.
  destruct (push_n_run device n w) as (evs & Hwire & Hb & Hs & Hp & Hlen & _).
  rewrite (emitted_app _ _ _ Hwire).
  split; [done|]. split; [done|]. split; [done|]. split; [|done].
  by apply consistent_same.
Qed.

(** X10.  With automatic refresh on and a counter that is not negative,
    every frame sent by any number of pushes, to the device or to the
    simulator, carries an id from 1 to 31. *)
Theorem push_n_ids_in_range device n w :
  refresh_connection_automatically (self w) = true ->
  0 <= counter (self w) ->
  Forall (fun id => 1 <= id < refresh_counter_limit)
         (frame_ids (emitted w (push_n device n w))).
Proof.
  intros Hr Hpos.
  destruct (push_n_run device n w) as (evs & Hwire & _ & _ & _ & _ & Hall & _).
  rewrite (emitted_app _ _ _ Hwire). by apply Hall.
Qed.

Lemma push_n_ids_in_range_witness :
  Forall (fun id => 1 <= id < refresh_counter_limit)
         (frame_ids (emitted (device16_at 25 true)
                             (push_n (obliging 0) 40 (device16_at 25 true)))).
Proof.
  apply (push_n_ids_in_range (obliging 0) 40 (device16_at 25 true)).
  - reflexivity.
  - vm_compute. discriminate.
Defined.

(** X11.  A simulated session sends no command to the device: any number of
    pushes all return, show exactly that many frames and send nothing, and
    the operations that test [simulated] return at once and leave the
    session as it was. *)
Theorem simulated_session_is_silent device w :
  simulated (self w) = true ->
  (forall n,
     let r := push_n device n w in
     fst r = Return tt
     /\ commands (emitted w r) = []
     /\ length (frame_ids (emitted w r)) = n)
  /\ (forall text xy color identifier font width speed direction,
        send_text device text xy color identifier font width speed direction w
        = (Return tt, w))
  /\ (forall brightness, set_brightness device brightness w = (Return tt, w))
  /\ (forall channel, set_channel device channel w = (Return tt, w))
  /\ (forall clock_id, set_clock device clock_id w = (Return tt, w))
  /\ (forall on, set_screen device on w = (Return tt, w))
  /\ (forall position, set_visualizer device position w = (Return tt, w)).
Proof.
  intros Hs. split.
  - intros n r. subst r.
    destruct (push_n_run device n w) as (evs & Hwire & _ & _ & _ & Hlen & _ & Hsim).
    rewrite (emitted_app _ _ _ Hwire). destruct (Hsim Hs) as [Hret Hcmd]. auto.
  - destruct (guarded_operations_skip_simulated device w Hs)
      as (? & ? & ? & ? & _ & ? & ?). repeat split; done.
Qed.

Lemma simulated_session_is_silent_witness :
  let r := push_n (obliging 0) 40 simulated16 in
  fst r = Return tt
  /\ commands (emitted simulated16 r) = []
  /\ length (frame_ids (emitted simulated16 r)) = 40%nat.
Proof.
  apply (proj1 (simulated_session_is_silent (obliging 0) simulated16 eq_refl) 40%nat).
Defined.

(** ** The geometry of [draw_line] *)

Example true_division_rounds :
  int_true_div 1 3 = Return (S754_finite false 6004799503160661 (-54))
  /\ int_true_div 0 7 = Return (S754_zero false)
  /\ int_true_div 1 0 = Raise ZeroDivisionError.
Proof. vm_compute. done. Qed.

Example float_of_int_range :
  float_of_int (2 ^ 53 + 1) = Return (S754_finite false 4503599627370496 1)
  /\ float_of_int (10 ^ 400) = Raise OverflowError.
Proof. vm_compute. done. Qed.

Example line_point_rounds_float :
  line_point (0, 0) (11, 22) 22 15 = Return (7, 15).
Proof. vm_compute. reflexivity. Qed.

Lemma line_point_coordinates start_xy stop_xy amount_of_steps step xy :
  line_point start_xy stop_xy amount_of_steps step = Return xy
  <-> line_coordinate (fst start_xy) (fst stop_xy) amount_of_steps step
      = Return (fst xy)
      /\ line_coordinate (snd start_xy) (snd stop_xy) amount_of_steps step
         = Return (snd xy).
Proof.
  unfold line_point, line_coordinate, lerp_location, round_location.
  destruct xy as [x y].
  destruct (if amount_of_steps =? 0 then Return (PyInt 0)
            else let? quotient := int_true_div step amount_of_steps in
                 Return (PyFloat quotient)) as [t|e]; [|by split; [|intros []]].
  destruct (lerp (PyInt (fst start_xy)) (PyInt (fst stop_xy)) t) as [vx|e];
    [|by split; [|intros []]].
  destruct (lerp (PyInt (snd start_xy)) (PyInt (snd stop_xy)) t) as [vy|e];
    cbn [fst snd].
  - destruct (py_round_number vx) as [rx|e]; [|by split; [|intros []]].
    destruct (py_round_number vy) as [ry|e]; [|by split; [|intros []]].
    split; [by intros [= -> ->] | by intros [[= ->] [= ->]]].
  - by split; [|intros []].
Qed.

Lemma fold_line_returns (point : Z -> Outcome Location) (steps : list Z)
    (acc : gset Location) :
  (forall step, step ∈ steps -> exists xy, point step = Return xy) ->
  exists line,
    fold_outcome (fun line step => let? pixel := point step in
                                   Return ({[ pixel ]} ∪ line)) steps acc
    = Return line.
Proof.
  revert acc. induction steps as [|s steps IH]; intros acc Hsteps; simpl.
  - by eexists.
  - destruct (Hsteps s) as [xy ->]; [by constructor|].
    apply IH. intros step Hstep. apply Hsteps. by constructor.
Qed.

Lemma forallb_range (f : Z -> bool) lo hi k :
  forallb f (range lo hi) = true -> lo <= k < hi -> f k = true.
Proof.
  intros Hall Hk. rewrite forallb_forall in Hall. apply Hall.
  by apply list_elem_of_In, elem_of_range.
Qed.

Lemma screen_lines_inside_spec side start stop amount_of_steps step :
  screen_lines_inside side = true ->
  0 <= start < side -> 0 <= stop < side ->
  1 <= amount_of_steps < side -> 0 <= step < amount_of_steps ->
  exists x,
    line_coordinate start stop amount_of_steps step = Return x
    /\ Z.min start stop <= x <= Z.max start stop.
Proof.
  unfold screen_lines_inside. intros Hall Hstart Hstop Hn Hstep.
  apply (forallb_range _ _ _ amount_of_steps) in Hall; [|done].
  apply (forallb_range _ _ _ step) in Hall; [|done].
  apply (forallb_range _ _ _ start) in Hall; [|done].
  apply (forallb_range _ _ _ stop) in Hall; [|done].
  unfold returns_between in Hall.
  destruct (line_coordinate start stop amount_of_steps step) as [x|e]; [|done].
  exists x. split; [done|]. lia.
Qed.

Lemma zero_advance_keeps_spec bound start sign x :
  zero_advance_keeps bound = true ->
  - bound <= start <= bound ->
  (let? x := py_add (PyInt start) (PyFloat (S754_zero sign)) in
   py_round_number x) = Return x ->
  x = start.
Proof.
  unfold zero_advance_keeps. intros Hall Hstart.
  apply (forallb_range _ _ _ start) in Hall; [|lia].
  cbn [forallb] in Hall. apply andb_prop in Hall as [Hpos Hneg].
  apply andb_prop in Hneg as [Hneg _].
  destruct sign; intros Hx; [rewrite Hx in Hneg | rewrite Hx in Hpos]; lia.
Qed.

Lemma screen_lines_inside_16 : screen_lines_inside 16 = true.
Proof. vm_compute. reflexivity. Qed.

Lemma zero_advance_keeps_1024 : zero_advance_keeps 1024 = true.
Proof. vm_compute. reflexivity. Qed.

(** At step 0 the interpolant is [0.0] and the advance a zero, so a
    coordinate that is computed at all is the start's. *)
Lemma line_coordinate_start start stop amount_of_steps x :
  0 < amount_of_steps -> - 1024 <= start <= 1024 ->
  line_coordinate start stop amount_of_steps 0 = Return x -> x = start.
Proof.
  intros Hn Hstart. unfold line_coordinate, int_true_div.
  destruct (Z.eqb_spec amount_of_steps 0) as [|_]; [exfalso; lia|].
  cbn [Z.eqb]. unfold lerp. cbn [py_sub py_mul as_float].
  destruct (float_of_int (stop - start)) as [distance|e]; [|done].
  assert (Hadvance :
            (exists sign, SFmul 53 1024 (S754_zero (amount_of_steps <? 0))
                            distance = S754_zero sign)
            \/ SFmul 53 1024 (S754_zero (amount_of_steps <? 0)) distance
               = S754_nan).
  { destruct distance; simpl; eauto. }
  destruct Hadvance as [[sign ->] | ->].
  - intros Hx.
    exact (zero_advance_keeps_spec 1024 start sign x zero_advance_keeps_1024
             Hstart Hx).
  - cbn [py_add as_float]. destruct (float_of_int start) as [f|e]; [|done].
    destruct f; done.
Qed.

Lemma minimum_amount_of_steps_positive start_xy stop_xy :
  start_xy <> stop_xy -> 0 < minimum_amount_of_steps start_xy stop_xy.
Proof.
  intros Hne. unfold minimum_amount_of_steps.
  destruct start_xy as [x y], stop_xy as [x' y']. simpl.
  assert (x <> x' \/ y <> y') as [?|?]; [|lia..].
  destruct (decide (x = x')); [right; congruence | by left].
Qed.

(** X12.  The set of points [draw_line] builds has at most [max(|dx|, |dy|)]
    elements, and it holds the start point when the end points differ and
    the start's coordinates are at most 1024 in size.  For end points on a
    16 by 16 screen the set is built, and each of its points lies in the
    bounding box of the end points.  For large coordinates the floats leave
    the box: from [(2^53 + 1, 0)] to [(2^53 + 3, 0)] the only point is
    [(2^53, 0)]. *)
Theorem line_points_in_bounding_box start_xy stop_xy :
  (forall line, line_points start_xy stop_xy = Return line ->
     (base.size line <= Z.to_nat (minimum_amount_of_steps start_xy stop_xy))%nat
     /\ (start_xy <> stop_xy ->
         - 1024 <= fst start_xy <= 1024 -> - 1024 <= snd start_xy <= 1024 ->
         start_xy ∈ line))
  /\ (0 <= fst start_xy < 16 -> 0 <= snd start_xy < 16 ->
      0 <= fst stop_xy < 16 -> 0 <= snd stop_xy < 16 ->
      exists line,
        line_points start_xy stop_xy = Return line
        /\ forall xy, xy ∈ line ->
             Z.min (fst start_xy) (fst stop_xy) <= fst xy
               <= Z.max (fst start_xy) (fst stop_xy)
             /\ Z.min (snd start_xy) (snd stop_xy) <= snd xy
               <= Z.max (snd start_xy) (snd stop_xy))
  /\ line_points (2 ^ 53 + 1, 0) (2 ^ 53 + 3, 0) = Return {[ (2 ^ 53, 0) ]}.
Proof.
  split; [|split].
  - intros line Hline. split.
    + unfold line_points in Hline. apply fold_line_spec in Hline as [_ Hsize].
      etrans; [exact Hsize|].
      rewrite size_empty. unfold range. rewrite length_seqZ. lia.
    + intros Hne Hx Hy.
      pose proof (minimum_amount_of_steps_positive _ _ Hne) as Hsteps.
      destruct (line_point start_xy stop_xy
                  (minimum_amount_of_steps start_xy stop_xy) 0)
        as [xy|e] eqn:Hpoint.
      * apply (elem_of_line_points _ _ _ _ Hline). exists 0.
        split; [lia|]. rewrite Hpoint. f_equal.
        apply line_point_coordinates in Hpoint as [Hpx Hpy].
        apply line_coordinate_start in Hpx; [|done..].
        apply line_coordinate_start in Hpy; [|done..].
        destruct xy, start_xy. simpl in *. congruence.
      * exfalso. unfold line_points, range in Hline.
        rewrite Z.sub_0_r, seqZ_cons in Hline by done.
        cbn [fold_outcome] in Hline. by rewrite Hpoint in Hline.
  - intros Hx Hy Hx' Hy'.
    assert (Hsteps : minimum_amount_of_steps start_xy stop_xy < 16)
      by (unfold minimum_amount_of_steps; lia).
    assert (Hpoints : forall step,
              0 <= step < minimum_amount_of_steps start_xy stop_xy ->
              exists xy,
                line_point start_xy stop_xy
                  (minimum_amount_of_steps start_xy stop_xy) step = Return xy
                /\ Z.min (fst start_xy) (fst stop_xy) <= fst xy
                     <= Z.max (fst start_xy) (fst stop_xy)
                /\ Z.min (snd start_xy) (snd stop_xy) <= snd xy
                     <= Z.max (snd start_xy) (snd stop_xy)).
    { intros step Hstep.
      destruct (screen_lines_inside_spec 16 (fst start_xy) (fst stop_xy)
                  (minimum_amount_of_steps start_xy stop_xy) step
                  screen_lines_inside_16)
        as (x & Hpx & Hbx); [lia..|].
      destruct (screen_lines_inside_spec 16 (snd start_xy) (snd stop_xy)
                  (minimum_amount_of_steps start_xy stop_xy) step
                  screen_lines_inside_16)
        as (y & Hpy & Hby); [lia..|].
      exists (x, y). split; [|done]. by apply line_point_coordinates. }
    destruct (fold_line_returns
                (line_point start_xy stop_xy
                   (minimum_amount_of_steps start_xy stop_xy))
                (range 0 (minimum_amount_of_steps start_xy stop_xy)) ∅)
      as [line Hline].
    { intros step Hstep%elem_of_range.
      destruct (Hpoints step Hstep) as (xy & ? & _). by exists xy. }
    exists line. split; [exact Hline|].
    intros xy (step & Hstep & Hpoint)%(elem_of_line_points _ _ _ _ Hline).
    destruct (Hpoints step Hstep) as (xy' & Hpoint' & Hbox).
    rewrite Hpoint in Hpoint'. by injection Hpoint' as <-.
  - vm_compute. reflexivity.
Qed.

Lemma line_points_in_bounding_box_witness :
  (exists line,
     line_points (2, 9) (7, 5) = Return line
     /\ forall xy, xy ∈ line -> Z.min 2 7 <= fst xy <= Z.max 2 7
                                 /\ Z.min 9 5 <= snd xy <= Z.max 9 5)
  /\ (2, 9) ∈ ({[ (2, 9); (3, 8); (4, 7); (5, 7); (6, 6) ]} : gset Location).
Proof.
  destruct (line_points_in_bounding_box (2, 9) (7, 5)) as (Hline & Hbox & _).
  split.
  - apply Hbox; simpl; lia.
  - apply (Hline {[ (2, 9); (3, 8); (4, 7); (5, 7); (6, 6) ]}).
    + vm_compute. reflexivity.
    + discriminate.
    + simpl. lia.
    + simpl. lia.
Defined.

(** ** Loops over enumerations *)

Lemma for_map_ext {A B} (g : A -> B) (body : A -> Py unit) (f : B -> Py unit) l w :
  (forall x w', body x w' = f (g x) w') ->
  for_ l body w = for_ (map g l) f w.
Proof.
  intros Hbody. revert w. induction l as [|x l IH]; intros w; simpl; [done|].
  unfold bind. rewrite Hbody. destruct (f (g x) w) as [[[]|e] w1]; [apply IH | done].
Qed.

Lemma for_filter_map {A B} (c : A -> bool) (g : A -> B) (body : A -> Py unit)
    (f : B -> Py unit) l w :
  (forall x w', body x w' = if c x then f (g x) w' else (Return tt, w')) ->
  for_ l body w = for_ (map g (List.filter c l)) f w.
Proof.
  intros Hbody. revert w. induction l as [|x l IH]; intros w; simpl; [done|].
  unfold bind. rewrite Hbody. destruct (c x); simpl.
  - unfold bind. destruct (f (g x) w) as [[[]|e] w1]; [apply IH | done].
  - apply IH.
Qed.

Lemma elem_of_enumerate {A} (l : list A) i x :
  (i, x) ∈ enumerate l <-> 0 <= i /\ l !! Z.to_nat i = Some x.
Proof.
  unfold enumerate. rewrite list_elem_of_lookup. split.
  - intros (k & Hk). apply lookup_zip_with_Some in Hk as (i' & x' & [= <- <-] & Hi & Hx).
    apply lookup_seqZ in Hi as [-> ?]. split; [lia|].
    by replace (Z.to_nat (0 + Z.of_nat k)) with k by lia.
  - intros [Hi Hx]. exists (Z.to_nat i). apply lookup_zip_with_Some.
    exists i, x. split; [done|]. split; [|done].
    apply lookup_seqZ. apply lookup_lt_Some in Hx. lia.
Qed.

Lemma enumerate_app {A} (l1 l2 : list A) :
  enumerate (l1 ++ l2)
  = enumerate l1
    ++ map (fun '(i, x) => (i + Z.of_nat (length l1), x)) (enumerate l2).
Proof.
  unfold enumerate. rewrite length_app, Nat2Z.inj_add.
  rewrite seqZ_app by lia.
  rewrite zip_with_app by (rewrite length_seqZ; lia). f_equal.
  rewrite Z.add_0_l.
  replace (seqZ (Z.of_nat (length l1)) (Z.of_nat (length l2)))
    with (Z.add (Z.of_nat (length l1)) <$> seqZ 0 (Z.of_nat (length l2))).
  2: { rewrite fmap_add_seqZ. f_equal. lia. }
  generalize (seqZ 0 (Z.of_nat (length l2))). intros s. revert l2.
  induction s as [|i s IH]; intros [|x l2]; simpl; try done.
  f_equal; [f_equal; lia | apply IH].
Qed.

Lemma list_ascii_of_string_app s1 s2 :
  list_ascii_of_string (s1 ++ s2)
  = list_ascii_of_string s1 ++ list_ascii_of_string s2.
Proof. induction s1 as [|c s1 IH]; simpl; [done | by rewrite IH]. Qed.

Lemma length_list_ascii_of_string s :
  length (list_ascii_of_string s) = String.length s.
Proof. induction s as [|c s IH]; simpl; [done | by rewrite IH]. Qed.

Lemma elem_of_glyph_points matrix xy px :
  px ∈ glyph_points matrix xy
  <-> exists i : nat,
        matrix !! i = Some 1
        /\ px = (fst xy + Z.of_nat i mod 3, snd xy + Z.of_nat i / 3).
Proof.
  unfold glyph_points. rewrite list_elem_of_In, in_map_iff. split.
  - intros ([index bit] & <- & Hin). apply filter_In in Hin as [Hin Hbit].
    apply list_elem_of_In, elem_of_enumerate in Hin as [Hpos Hlook].
    apply Z.eqb_eq in Hbit as ->. exists (Z.to_nat index).
    split; [done|]. rewrite Z2Nat.id by done.
    by rewrite Z.quot_div_nonneg by lia.
  - intros (i & Hlook & ->). exists (Z.of_nat i, 1). split.
    + by rewrite Z.quot_div_nonneg by lia.
    + apply filter_In. split; [|done].
      apply list_elem_of_In, elem_of_enumerate. split; [lia|].
      by rewrite Nat2Z.id.
Qed.

Lemma for_nested_curried {A B} (ys : list B) (xs : list A)
    (body : A -> B -> Py unit) w :
  for_ ys (fun y => for_ xs (fun x => body x y)) w
  = for_ (flat_map (fun y => map (fun x => (x, y)) xs) ys)
         (fun l => body (fst l) (snd l)) w.
Proof. apply (for_nested ys xs (fun l => body (fst l) (snd l))). Qed.

Lemma for_only_redraws {A} (l : list A) (body : A -> Py unit) w :
  consistent (self w) ->
  (forall x w', consistent (self w') -> only_redraws w' (body x w')) ->
  only_redraws w (for_ l body w).
Proof.
  intros Hc Hbody. revert w Hc. induction l as [|x l IH]; intros w Hc; simpl.
  - split; [done|]. exists (buffer (self w)). rewrite with_buffer_self.
    split; [done|]. by destruct w as [[] ?].
  - unfold bind. destruct (Hbody x w Hc) as (Hr & b1 & Hw & Hc1).
    destruct (body x w) as [o w1]. simpl in Hr, Hw. subst o w1.
    destruct (IH (mkWorld (with_buffer b1 (self w)) (wire w)) Hc1)
      as (Hr2 & b2 & Hw2 & Hc2).
    split; [done|]. exists b2. split; [by rewrite Hw2|done].
Qed.

(** ** Glyphs, text and images *)

Lemma draw_character_run retrieve_glyph w character xy rgb matrix :
  consistent (self w) -> retrieve_glyph character = Some matrix ->
  draw_character retrieve_glyph character xy rgb w
  = for_ (glyph_points matrix xy) (fun px => draw_pixel px rgb) w.
Proof.
  intros Hc Hg. unfold draw_character, glyph_points. rewrite Hg.
  apply (for_filter_map (fun '(_, bit) => bit =? 1)
           (fun '(index, _) => (fst xy + index mod 3, snd xy + Z.quot index 3))).
  intros [index bit] w'. by destruct (bit =? 1).
Qed.

(** X13.  On a well-formed session [draw_character] and [draw_text] return,
    send nothing and change at most the buffer.  A character without a glyph
    changes nothing.  For a character with a glyph, a pixel of the screen
    gets the clamped colour when some bit of the matrix is 1 at an index [i]
    with the pixel at column [x + i mod 3] and row [y + i / 3], and keeps
    its value otherwise. *)
Theorem draw_character_draws_glyph retrieve_glyph w character xy rgb :
  consistent (self w) ->
  let r := draw_character retrieve_glyph character xy rgb w in
  only_redraws w r
  /\ (forall text at_xy, only_redraws w (draw_text retrieve_glyph text at_xy rgb w))
  /\ match retrieve_glyph character with
     | None => r = (Return tt, w)
     | Some matrix =>
         forall px, on_screen (self w) px ->
           let lit :=
             exists i : nat,
               matrix !! i = Some 1
               /\ px = (fst xy + Z.of_nat i mod 3, snd xy + Z.of_nat i / 3) in
           (lit -> pixel_at (self (snd r)) px = Some (clamp_color rgb))
           /\ (~ lit -> pixel_at (self (snd r)) px = pixel_at (self w) px)
     end.
Proof.
  intros Hc r.
  assert (Hchar : forall c at_xy w', consistent (self w') ->
            only_redraws w' (draw_character retrieve_glyph c at_xy rgb w')).
  { intros c at_xy w' Hc'. destruct (retrieve_glyph c) as [matrix|] eqn:Hg.
    - rewrite (draw_character_run _ _ _ _ _ _ Hc' Hg).
      destruct (draw_pixels_run (glyph_points matrix at_xy) rgb w' Hc')
        as (b & -> & Hcb & _).
      split; [done|]. eauto.
    - unfold draw_character. rewrite Hg. split; [done|].
      exists (buffer (self w')). rewrite with_buffer_self.
      split; [done|]. by destruct w' as [[] ?]. }
  split; [by apply Hchar|]. split.
  { intros text at_xy. unfold draw_text. apply for_only_redraws; [done|].
    intros [index c] w' Hc'. by apply Hchar. }
  subst r. destruct (retrieve_glyph character) as [matrix|] eqn:Hg.
  - rewrite (draw_character_run _ _ _ _ _ _ Hc Hg).
    destruct (draw_pixels_run (glyph_points matrix xy) rgb w Hc)
      as (b & -> & Hcb & Hp).
    intros px Hpx. cbv zeta. cbn [fst snd self].
    assert (Hnow : pixel_at (with_buffer b (self w)) px
                   = if decide (px ∈ glyph_points matrix xy)
                     then Some (clamp_color rgb) else pixel_at (self w) px)
      by (by apply Hp).
    rewrite Hnow.
    destruct (decide (px ∈ glyph_points matrix xy)) as [Hin|Hin];
      rewrite elem_of_glyph_points in Hin; split; intros Hlit; done.
  - unfold draw_character. by rewrite Hg.
Qed.

Lemma draw_character_draws_glyph_witness :
  only_redraws device16 (draw_character bar_font "I" (14, 0) (1, 2, 3) device16)
  /\ only_redraws device16 (draw_text bar_font "HI" (9, 12) (1, 2, 3) device16).
Proof.
  destruct (draw_character_draws_glyph bar_font device16 "I" (14, 0) (1, 2, 3))
    as (Hchar & Htext & _).
  - apply consistentb_true. vm_compute. reflexivity.
  - split; [apply Hchar | apply Htext].
Defined.

(** X14.  Drawing a text made of two parts is drawing the first part and
    then the second part four columns further to the right for each
    character of the first; drawing the empty text does nothing.  This
    holds on every session and for every glyph table. *)
Theorem draw_text_appends retrieve_glyph w s1 s2 xy rgb :
  draw_text retrieve_glyph (s1 ++ s2) xy rgb w
  = (draw_text retrieve_glyph s1 xy rgb >>
     draw_text retrieve_glyph s2
       (fst xy + 4 * Z.of_nat (String.length s1), snd xy) rgb) w
  /\ draw_text retrieve_glyph "" xy rgb w = (Return tt, w).
Proof.
  split; [|done]. unfold draw_text.
  rewrite list_ascii_of_string_app, enumerate_app, for_app.
  unfold bind. destruct (for_ _ _ w) as [[[]|e] w1]; [|done].
  symmetry. apply for_map_ext. intros [index character] w'.
  rewrite length_list_ascii_of_string. cbn [fst snd].
  by replace (index * 4 + (fst xy + 4 * Z.of_nat (String.length s1)))
    with ((index + Z.of_nat (String.length s1)) * 4 + fst xy) by lia.
Qed.

Lemma elem_of_image_points (wd h x0 y0 : Z) px :
  px ∈ map (fun l : Location => (fst l + x0, snd l + y0))
           (flat_map (fun y => map (fun x => (x, y)) (range 0 wd)) (range 0 h))
  <-> 0 <= fst px - x0 < wd /\ 0 <= snd px - y0 < h.
Proof.
  rewrite list_elem_of_In, in_map_iff. split.
  - intros ([x y] & <- & Hin). apply in_flat_map in Hin as (y' & Hy & Hx).
    apply in_map_iff in Hx as (x' & [= <- <-] & Hx).
    apply list_elem_of_In, elem_of_range in Hy.
    apply list_elem_of_In, elem_of_range in Hx. simpl. lia.
  - intros [Hx Hy]. exists (fst px - x0, snd px - y0). split.
    + destruct px as [a b]. simpl. f_equal; lia.
    + apply in_flat_map. exists (snd px - y0). split.
      * apply list_elem_of_In, elem_of_range. lia.
      * apply in_map_iff. exists (fst px - x0). split; [done|].
        apply list_elem_of_In, elem_of_range. lia.
Qed.

(** X15.  On a well-formed session [draw_image] returns, sends nothing and
    changes at most the buffer.  With [img] the image that goes through the
    loops (the given one when it fits the screen, the padded or thumbnailed
    one otherwise), a pixel of the screen that lies under [img] placed with
    its top left corner at [xy] gets the clamped colour of the image pixel
    above it, and every other pixel keeps its value. *)
Theorem draw_image_blits pad thumbnail w image xy mode pad_resample :
  consistent (self w) ->
  let img := fitted pad thumbnail (self w) image mode pad_resample in
  let r := draw_image pad thumbnail image xy mode pad_resample w in
  only_redraws w r
  /\ (forall px, on_screen (self w) px ->
        pixel_at (self (snd r)) px
        = if decide (under_image img xy px)
          then Some (clamp_color
                       (getpixel img (fst px - fst xy, snd px - snd xy)))
          else pixel_at (self w) px)
  /\ (fst (image_size image) <= size (self w) ->
      snd (image_size image) <= size (self w) -> img = image).
Proof.
  intros Hc img r. subst r.
  set (colour := fun px : Location =>
                   getpixel img (fst px - fst xy, snd px - snd xy)).
  assert (Hrun :
    draw_image pad thumbnail image xy mode pad_resample w
    = for_ (map (fun l : Location => (fst l + fst xy, snd l + snd xy))
              (flat_map (fun y => map (fun x => (x, y))
                                      (range 0 (fst (image_size img))))
                        (range 0 (snd (image_size img)))))
           (fun px : Location => draw_pixel px (colour px)) w).
  { unfold draw_image, bind at 1, get. cbv beta iota zeta. fold img.
    rewrite for_nested_curried.
    apply (for_map_ext (fun l : Location => (fst l + fst xy, snd l + snd xy))).
    intros [x y] w'. unfold bind, get, ret. cbn [fst snd]. unfold colour.
    cbn [fst snd]. rewrite !Z.add_simpl_r.
    destruct (Z.ltb_spec (size (self w') - 1) (x + fst xy)),
             (Z.ltb_spec (x + fst xy) 0); cbn [orb];
      try (symmetry; apply draw_pixel_outside; simpl; lia).
    destruct (Z.ltb_spec (size (self w') - 1) (y + snd xy)),
             (Z.ltb_spec (y + snd xy) 0); cbn [orb];
      try (symmetry; apply draw_pixel_outside; simpl; lia).
    done. }
  destruct (draw_painted_run
              (map (fun l : Location => (fst l + fst xy, snd l + snd xy))
                 (flat_map (fun y => map (fun x => (x, y))
                                         (range 0 (fst (image_size img))))
                           (range 0 (snd (image_size img)))))
              colour w Hc) as (b & Hb & Hcb & Hp).
  assert (Hfull : draw_image pad thumbnail image xy mode pad_resample w
                  = (Return tt, mkWorld (with_buffer b (self w)) (wire w)))
    by (etrans; [exact Hrun | exact Hb]).
  rewrite Hfull. clear Hrun Hb Hfull.
  split; [split; [done|]; eauto|]. split.
  - intros px Hpx. unfold pixel_at at 1. cbn [fst snd self]. simpl.
    rewrite (Hp px Hpx).
    destruct (decide (px ∈ _)) as [Hin|Hin], (decide (under_image img xy px))
      as [Hu|Hu]; try done; rewrite elem_of_image_points in Hin; done.
  - intros Hw Hh. subst img. unfold fitted.
    destruct (Z.gtb_spec (fst (image_size image)) (size (self w))),
             (Z.gtb_spec (snd (image_size image)) (size (self w)));
      simpl; try done; lia.
Qed.

Lemma draw_image_blits_witness :
  let img := fitted crop crop (self device16) tiny_image 0 false in
  let r := draw_image crop crop tiny_image (15, 3) 0 false device16 in
  only_redraws device16 r
  /\ (forall px, on_screen (self device16) px ->
        pixel_at (self (snd r)) px
        = if decide (under_image img (15, 3) px)
          then Some (clamp_color (getpixel img (fst px - 15, snd px - 3)))
          else pixel_at (self device16) px)
  /\ (fst (image_size tiny_image) <= size (self device16) ->
      snd (image_size tiny_image) <= size (self device16) -> img = tiny_image).
Proof.
  apply (draw_image_blits crop crop device16 tiny_image (15, 3) 0 false).
  apply consistentb_true. vm_compute. reflexivity.
Defined.

(** ** Colours as text *)

Lemma format_02X_byte n :
  0 <= n <= 255 ->
  format_02X n = String (hex_digit (n / 16)) (String (hex_digit (n mod 16)) "").
Proof.
  intros Hn.
  assert (Hall : forallb
            (fun n => String.eqb (format_02X n)
               (String (hex_digit (n / 16)) (String (hex_digit (n mod 16)) "")))
            (seqZ 0 256) = true) by (vm_compute; reflexivity).
  rewrite forallb_forall in Hall. apply String.eqb_eq, Hall.
  apply list_elem_of_In, elem_of_seqZ. lia.
Qed.

Lemma hex_digit_inj a b :
  0 <= a < 16 -> 0 <= b < 16 -> hex_digit a = hex_digit b -> a = b.
Proof.
  intros Ha Hb Heq. apply (f_equal nat_of_ascii) in Heq. unfold hex_digit in Heq.
  rewrite !nat_ascii_embedding in Heq.
  - destruct (Z.ltb_spec a 10), (Z.ltb_spec b 10); lia.
  - destruct (Z.ltb_spec b 10); lia.
  - destruct (Z.ltb_spec a 10); lia.
Qed.

Lemma format_02X_byte_inj n m :
  0 <= n <= 255 -> 0 <= m <= 255 -> format_02X n = format_02X m -> n = m.
Proof.
  intros Hn Hm. rewrite !format_02X_byte by done. intros [= Hhi Hlo].
  apply hex_digit_inj in Hhi, Hlo;
    try (split; [apply Z.div_pos | apply Z.div_lt_upper_bound]; lia);
    try (apply Z.mod_pos_bound; lia).
  rewrite (Z.div_mod n 16), (Z.div_mod m 16) by lia. congruence.
Qed.

(** X16.  For a colour whose components are bytes, [rgb_to_hex_color] gives
    seven characters, a hash sign and two hexadecimal digits for each
    component, and different colours give different texts.  Outside the
    bytes neither holds: the components are not clamped, and (291, 69, 0)
    and (18, 837, 0) give the same text. *)
Theorem rgb_to_hex_color_on_bytes :
  (forall rgb, is_byte_color rgb ->
     let '(r, g, b) := rgb in
     rgb_to_hex_color rgb
     = String "#"
         (String (hex_digit (r / 16)) (String (hex_digit (r mod 16))
         (String (hex_digit (g / 16)) (String (hex_digit (g mod 16))
         (String (hex_digit (b / 16)) (String (hex_digit (b mod 16)) "")))))))
  /\ (forall rgb1 rgb2, is_byte_color rgb1 -> is_byte_color rgb2 ->
        rgb_to_hex_color rgb1 = rgb_to_hex_color rgb2 -> rgb1 = rgb2)
  /\ rgb_to_hex_color (291, 69, 0) = rgb_to_hex_color (18, 837, 0).
Proof.
  split; [|split].
  - intros [[r g] b] (Hr & Hg & Hb). unfold rgb_to_hex_color.
    by rewrite !format_02X_byte.
  - intros [[r1 g1] b1] [[r2 g2] b2] (Hr1 & Hg1 & Hb1) (Hr2 & Hg2 & Hb2).
    unfold rgb_to_hex_color. rewrite !format_02X_byte by done.
    intros [= H1 H2 H3 H4 H5 H6].
    assert (format_02X r1 = format_02X r2) by (rewrite !format_02X_byte; congruence).
    assert (format_02X g1 = format_02X g2) by (rewrite !format_02X_byte; congruence).
    assert (format_02X b1 = format_02X b2) by (rewrite !format_02X_byte; congruence).
    f_equal; [f_equal|]; by apply format_02X_byte_inj.
  - reflexivity.
Qed.

Lemma rgb_to_hex_color_on_bytes_witness :
  rgb_to_hex_color (255, 0, 171) = "#FF00AB"%string
  /\ ((255, 0, 171) = (255, 0, 171)).
Proof.
  destruct rgb_to_hex_color_on_bytes as (Hshape & Hinj & _). split.
  - apply (Hshape (255, 0, 171)). unfold is_byte_color. lia.
  - apply Hinj; [unfold is_byte_color; lia.. | reflexivity].
Defined.

(** ** The tools *)

Lemma perform_last channel c self sent :
  let '(_, (self', sent')) := ScoreBoard.perform channel c self sent in
  sent' = sent
          ++ [Tools_SetScoreBoard (ScoreBoard.blue_score self')
                                  (ScoreBoard.red_score self')].
Proof. by destruct c. Qed.

(** X17.  A scoreboard sends its scores when it is built (0 and 0 through
    [get_score_board]) and after every call; whichever calls succeed, the
    last command sent carries the scores the object holds, one command has
    gone out for each call, and the setter of one score leaves the other
    score as it was. *)
Theorem scoreboard_mirrors_scores channel start cs sent :
  let built := snd (ScoreBoard.init channel start sent) in
  let final := ScoreBoard.perform_all channel cs (fst built) (snd built) in
  snd built = sent ++ [Tools_SetScoreBoard (fst start) (snd start)]
  /\ last (snd final)
     = Some (Tools_SetScoreBoard (ScoreBoard.blue_score (fst final))
                                 (ScoreBoard.red_score (fst final)))
  /\ length (snd final) = (length sent + 1 + length cs)%nat
  /\ (forall value self sent',
        let after := fst (snd (ScoreBoard.set_blue_score channel value self sent')) in
        ScoreBoard.blue_score after = value
        /\ ScoreBoard.red_score after = ScoreBoard.red_score self)
  /\ (forall value self sent',
        let after := fst (snd (ScoreBoard.set_red_score channel value self sent')) in
        ScoreBoard.red_score after = value
        /\ ScoreBoard.blue_score after = ScoreBoard.blue_score self)
  /\ snd (get_score_board channel sent)
     = (ScoreBoard.mk 0 0, sent ++ [Tools_SetScoreBoard 0 0]).
Proof.
  cbv zeta. split; [done|]. split; [|split; [|done]].
  - assert (Hinv : forall cs self sent0,
      last sent0 = Some (Tools_SetScoreBoard (ScoreBoard.blue_score self)
                                             (ScoreBoard.red_score self)) ->
      let final := ScoreBoard.perform_all channel cs self sent0 in
      last (snd final)
      = Some (Tools_SetScoreBoard (ScoreBoard.blue_score (fst final))
                                  (ScoreBoard.red_score (fst final)))).
    { clear. induction cs as [|c cs IH]; intros self sent0 Hlast; [done|].
      simpl. pose proof (perform_last channel c self sent0) as Hp.
      destruct (ScoreBoard.perform channel c self sent0) as [o [self' sent']].
      apply IH. rewrite Hp. apply last_snoc. }
    apply Hinv. simpl. apply last_snoc.
  - assert (Hlen : forall cs self sent0,
      length (snd (ScoreBoard.perform_all channel cs self sent0))
      = (length sent0 + length cs)%nat).
    { clear. induction cs as [|c cs IH]; intros self sent0; simpl; [lia|].
      pose proof (perform_last channel c self sent0) as Hp.
      destruct (ScoreBoard.perform channel c self sent0) as [o [self' sent']].
      rewrite IH, Hp, length_app. simpl. lia. }
    rewrite Hlen. simpl. rewrite length_app. simpl. lia.
Qed.

(** ** Commands towards a device *)

(** X18.  Towards a device, [set_brightness] sends one command whose
    brightness is the argument brought into [[0, 100]], [send_text] one
    command whose text id is the argument brought into [[0, 19]], with
    alignment 1 and the colour as given, and [set_screen] one command with
    1 for on and 0 for off; none of them changes the session. *)
Theorem device_commands_are_clamped device w :
  simulated (self w) = false ->
  (forall brightness,
     let r := set_brightness device brightness w in
     self (snd r) = self w
     /\ emitted w r
        = [Sent (Channel_SetBrightness (Z.max 0 (Z.min brightness 100)))])
  /\ (forall text xy color identifier font width speed direction,
        let r := send_text device text xy color identifier font width speed
                           direction w in
        self (snd r) = self w
        /\ emitted w r
           = [Sent (Draw_SendText (Z.max 0 (Z.min identifier 19))
                      (fst xy) (snd xy) direction font width speed text
                      (rgb_to_hex_color color) 1)])
  /\ (forall on,
        let r := set_screen device on w in
        self (snd r) = self w
        /\ emitted w r = [Sent (Channel_OnOffScreen (if on then 1 else 0))]).
Proof.
  intros Hs.
  unfold set_brightness, send_text, set_screen, send_command, bind, get, ret,
    emitted.
  cbn [fst snd self wire]. rewrite Hs. repeat split.
  all: rewrite <- ?clamp_spec by lia.
  all: match goal with
       | |- context [match ?answer with Some _ => _ | None => _ end] =>
           destruct answer
       end; cbn [fst snd self wire]; try done; by rewrite drop_app_length.
Qed.

Lemma device_commands_are_clamped_witness :
  let r := set_brightness (obliging 0) 250 device16 in
  self (snd r) = self device16
  /\ emitted device16 r
     = [Sent (Channel_SetBrightness (Z.max 0 (Z.min 250 100)))].
Proof.
  destruct (device_commands_are_clamped (obliging 0) device16 eq_refl)
    as (Hbrightness & _ & _).
  exact (Hbrightness 250).
Defined.

Lemma push_n_keeps_picture_witness :
  let r := push_n (obliging 0) 3 device16 in
  consistent (self (snd r))
  /\ length (frame_ids (emitted device16 r)) = 3%nat.
Proof.
  destruct (push_n_keeps_picture (obliging 0) 3 device16)
    as (_ & _ & _ & Hkeep & Hframes).
  split.
  - apply Hkeep. apply consistentb_true. vm_compute. reflexivity.
  - apply Hframes. vm_compute. reflexivity.
Defined.

(** ** Clamping and indices *)

(** X19.  With [minimum <= maximum], [clamp] gives a value of the range,
    the argument itself when it is in the range, the nearer bound
    otherwise; it is monotone and applying it twice changes nothing.
    [__clamp_location] accordingly gives a point of the screen, the
    argument itself when it is on the screen, and leaves the session
    alone. *)
Theorem clamp_brings_into_range v lo hi w xy :
  lo <= hi -> 0 < size (self w) ->
  lo <= clamp v lo hi <= hi
  /\ (lo <= v <= hi -> clamp v lo hi = v)
  /\ (v < lo -> clamp v lo hi = lo)
  /\ (hi < v -> clamp v lo hi = hi)
  /\ clamp (clamp v lo hi) lo hi = clamp v lo hi
  /\ (forall v', v <= v' -> clamp v lo hi <= clamp v' lo hi)
  /\ (exists p, clamp_location xy w = (Return p, w)
                /\ on_screen (self w) p
                /\ (on_screen (self w) xy -> p = xy)).
Proof.
  intros Hr Hs. rewrite !clamp_spec by lia.
  repeat split; try lia.
  - intros v' Hv. rewrite !clamp_spec by lia. lia.
  - unfold clamp_location, bind, get, ret. eexists. split; [done|].
    rewrite !clamp_spec by lia. unfold on_screen. simpl. split; [lia|].
    intros [[] []]. destruct xy as [x y]. simpl in *. f_equal; lia.
Qed.

Lemma clamp_brings_into_range_witness :
  0 <= clamp 300 0 255 <= 255
  /\ (300 < 0 -> clamp 300 0 255 = 0)
  /\ (255 < 300 -> clamp 300 0 255 = 255).
Proof.
  destruct (clamp_brings_into_range 300 0 255 device16 (20, -3))
    as (Hin & _ & Hlow & Hhigh & _).
  - lia.
  - reflexivity.
  - auto.
Defined.

(** X20.  With [pixel_count = side * side], writing at a valid index [i] is
    writing at the coordinate [(i mod side, i / side)], which is on the
    screen: the index and the coordinate determine each other. *)
Theorem draw_pixel_at_index_is_coordinate w i rgb :
  0 < size (self w) ->
  pixel_count (self w) = size (self w) * size (self w) ->
  0 <= i < pixel_count (self w) ->
  let xy := (i mod size (self w), i / size (self w)) in
  on_screen (self w) xy
  /\ fst xy + snd xy * size (self w) = i
  /\ draw_pixel_at_index i rgb w = draw_pixel xy rgb w.
Proof.
  intros Hs Hc Hi xy.
  pose proof (Z.div_mod i (size (self w)) ltac:(lia)) as Hdm.
  pose proof (Z.mod_pos_bound i (size (self w)) ltac:(lia)) as Hm.
  assert (Hq : 0 <= i / size (self w) < size (self w)).
  { split; [apply Z.div_pos; lia | apply Z.div_lt_upper_bound; lia]. }
  assert (Hon : on_screen (self w) xy) by (split; simpl; lia).
  assert (Hidx : fst xy + snd xy * size (self w) = i) by (simpl; lia).
  split; [done|]. split; [done|].
  rewrite draw_pixel_on_screen by done. by rewrite Hidx.
Qed.

Lemma draw_pixel_at_index_is_coordinate_witness :
  let xy := (37 mod size (self device16), 37 / size (self device16)) in
  on_screen (self device16) xy
  /\ fst xy + snd xy * size (self device16) = 37
  /\ draw_pixel_at_index 37 (1, 2, 3) device16 = draw_pixel xy (1, 2, 3) device16.
Proof.
  apply (draw_pixel_at_index_is_coordinate device16 37 (1, 2, 3)).
  - reflexivity.
  - reflexivity.
  - vm_compute. intuition discriminate.
Defined.

(** ** The counter over many pushes *)

Lemma push_n_counter device n w :
  refresh_connection_automatically (self w) = true ->
  1 <= counter (self w) < refresh_counter_limit ->
  let r := push_n device n w in
  fst r = Return tt ->
  counter (self (snd r))
  = (counter (self w) - 1 + Z.of_nat n) mod (refresh_counter_limit - 1) + 1.
Proof.
  unfold refresh_counter_limit. revert w.
  induction n as [|n IH]; intros w Hr Hc Hret.
  - simpl. rewrite Z.add_0_r, Z.mod_small by lia. lia.
  - simpl in *. unfold bind in *.
    destruct (push_step device w)
      as (evs1 & _ & _ & Hrefresh & _ & Hid & _).
    destruct (push device w) as [[[]|e] w1]; simpl in *; [|done].
    specialize (Hid eq_refl).
    assert (Hnext : counter (self w1) = counter (self w) mod 31 + 1).
    { rewrite Hid. unfold next_id, trips. rewrite Hr. simpl.
      unfold refresh_counter_limit.
      destruct (Z.geb_spec (counter (self w) + 1) 32).
      - replace (counter (self w)) with 31 by lia. reflexivity.
      - rewrite Z.mod_small by lia. done. }
    rewrite (IH w1); [|congruence| |done].
    + rewrite Hnext. replace (counter (self w) mod 31 + 1 - 1 + Z.of_nat n)
        with (counter (self w) mod 31 + Z.of_nat n) by lia.
      rewrite Z.add_mod_idemp_l by lia. f_equal. f_equal. lia.
    + rewrite Hnext. pose proof (Z.mod_pos_bound (counter (self w)) 31). lia.
Qed.

(** X21.  With automatic refresh on and the counter between 1 and 31, the
    counter after [n] pushes that all return is
    [(counter - 1 + n) mod 31 + 1]: the ids run through 1 .. 31 in a
    cycle, and 31 pushes bring the counter back to where it was. *)
Theorem counter_cycles device n w :
  refresh_connection_automatically (self w) = true ->
  1 <= counter (self w) < refresh_counter_limit ->
  (fst (push_n device n w) = Return tt ->
   counter (self (snd (push_n device n w)))
   = (counter (self w) - 1 + Z.of_nat n) mod 31 + 1)
  /\ (fst (push_n device 31 w) = Return tt ->
      counter (self (snd (push_n device 31 w))) = counter (self w)).
Proof.
  intros Hr Hc. split.
  - intros Hret. by rewrite (push_n_counter device n w Hr Hc Hret).
  - intros Hret. rewrite (push_n_counter device 31 w Hr Hc Hret).
    unfold refresh_counter_limit in *.
    replace (counter (self w) - 1 + Z.of_nat 31)
      with (counter (self w) - 1 + 1 * 31) by lia.
    rewrite Z.mod_add, Z.mod_small by lia. lia.
Qed.

Lemma counter_cycles_witness :
  let w := device16_at 7 true in
  (fst (push_n (obliging 0) 40 w) = Return tt ->
   counter (self (snd (push_n (obliging 0) 40 w)))
   = (counter (self w) - 1 + Z.of_nat 40) mod 31 + 1)
  /\ (fst (push_n (obliging 0) 31 w) = Return tt ->
      counter (self (snd (push_n (obliging 0) 31 w))) = counter (self w)).
Proof.
  apply (counter_cycles (obliging 0) 40 (device16_at 7 true)).
  - reflexivity.
  - vm_compute. intuition discriminate.
Defined.
